(** * http-backoff: retry classifier, backoff scheduling, execution loop
      and request builder

    A shallow embedding of [src/backoff/backoff.go] and
    [src/backoff/option.go] (package [backoff]), together with the part of
    the scheduling library [github.com/cenkalti/backoff/v4] that the
    package drives ([NewExponentialBackOff], [WithMaxRetries],
    [Permanent], [RetryNotifyWithData]).

    Conventions.
    - Go [int] and [time.Duration] values are [Z] (durations count
      nanoseconds); [uint64] counters are [N].  No computation below comes
      near the 64-bit bounds, so wrap-around never fires and is left out.
    - A Go map is a [gmap]; a map-typed struct field that may hold the nil
      map is an [option (gmap _ _)], [None] being nil.
    - Pointers that matter by identity (the [http.Client] pointers) are
      references of an inductive type.
    - Effects (the clock, the transport, the random source, the hooks) are
      threaded through an explicit machine state with a trace of events. *)

From Stdlib Require Import ZArith QArith Qminmax Qround Lia Lqa List Bool Ascii.
From stdpp Require Import base option list gmap strings.

Local Open Scope Z_scope.

(** ** Durations ([time] package) *)

Module time.
Definition Duration := Z.
Definition Nanosecond : Duration := 1.
Definition Microsecond : Duration := 1000 * Nanosecond.
Definition Millisecond : Duration := 1000 * Microsecond.
Definition Second : Duration := 1000 * Millisecond.
Definition Minute : Duration := 60 * Second.
End time.

(** ** URLs ([net/url]) *)

Module url.
(** [url.URL]: the struct as declared by the library. *)
Record URL := mkURL {
  Scheme : string;
  Opaque : string;
  User : option (string * option string);
  Host : string;
  Path : string;
  RawPath : string;
  OmitHost : bool;
  ForceQuery : bool;
  RawQuery : string;
  Fragment : string;
  RawFragment : string
}.

(** The assignment [u.RawQuery = q]. *)
Definition set_RawQuery (q : string) (u : URL) : URL :=
  mkURL (Scheme u) (Opaque u) (User u) (Host u) (Path u) (RawPath u)
        (OmitHost u) (ForceQuery u) q (Fragment u) (RawFragment u).
End url.

(** ** Readers ([io.Reader] values the builder stores) *)

Inductive Reader :=
| strings_NewReader (s : string)
| bytes_NewReader (b : string)
| bytes_NewBuffer (b : string)
| CallerReader (id : nat).        (* a reader supplied by the caller *)

(** ** HTTP data ([net/http]) *)

Module http.
Definition StatusRequestTimeout : Z := 408.
Definition StatusTooEarly : Z := 425.
Definition StatusTooManyRequests : Z := 429.
Definition StatusNotImplemented : Z := 501.

Definition MethodGet : string := "GET".
Definition MethodPost : string := "POST".
Definition MethodPut : string := "PUT".
Definition MethodPatch : string := "PATCH".
Definition MethodDelete : string := "DELETE".

(** [http.Client] pointers are compared by identity only.
    [DefaultClient] is the process-wide [http.DefaultClient];
    [NewClient n] is the n-th client allocated by the program. *)
Inductive ClientRef :=
| DefaultClient
| NewClient (n : nat).

(** What reading [resp.Body] to its end yields: the bytes, or a read
    error. *)
Inductive BodyStream :=
| BodyBytes (b : string)
| BodyFails (msg : string).

(** [http.Response], restricted to the fields the package reads. *)
Record Response := mkResponse {
  Status : string;
  StatusCode : Z;
  Header : gmap string (list string);
  Body : BodyStream
}.

(** [http.Request], restricted to the fields the package sets. *)
Record Request := mkRequest {
  Method : string;
  URL : url.URL;
  ReqHeader : gmap string (list string);
  ReqBody : option Reader
}.
End http.

#[global] Instance ClientRef_eq_dec : EqDecision http.ClientRef.
Proof. solve_decision. Defined.

(** ** Errors

    The error values that flow through the package.  A transport error is
    seen by the package only through the two [errors.Is] tests of
    [ErrorRetryPolicy]; it is recorded with the answers to both. *)
Inductive error :=
| TransportError (isDeadlineExceeded isRetrieveError : bool) (msg : string)
| Errorf (format arg : string)                 (* fmt.Errorf(format, arg) *)
| ReadError (msg : string)                     (* from io.ReadAll *)
| PackageError (pkg msg : string)              (* from a library package *)
| RetryableError (Response : option http.Response) (Err : error)
| PermanentError (Err : error).                (* backoff.PermanentError *)

(** The [Is] method of [RetryableError]: true exactly for a
    [RetryableError] target.
    [errors.Is err (&RetryableError{})] walks the [Unwrap] chain of [err]
    and asks each link; only [RetryableError] and [PermanentError] unwrap,
    and [&RetryableError{}] is a fresh pointer, equal to no link. *)
Fixpoint errors_Is_RetryableError (err : error) : bool :=
  match err with
  | RetryableError _ _ => true
  | PermanentError e => errors_Is_RetryableError e
  | _ => false
  end.

(** ** Defaults ([backoff.go], lines 16-22) *)

Definition DefaultMaxRetry : N := 0.
Definition DefaultInitialInterval : time.Duration := 100 * time.Millisecond.
Definition DefaultMultiplier : Q := 3 # 2.
Definition DefaultMaxInterval : time.Duration := 5 * time.Second.
Definition DefaultMaxElapsedTime : time.Duration := 30 * time.Minute.

(** ** Retry classifier *)

(** [RetryableSet] ([backoff.go], lines 25-29). *)
Definition RetryableSet : gset Z :=
  {[ http.StatusRequestTimeout; http.StatusTooEarly; http.StatusTooManyRequests ]}.

(** [ErrorRetryPolicy] ([backoff.go], lines 306-317). *)
Definition ErrorRetryPolicy (err : error) : bool :=
  match err with
  | TransportError isDeadline isRetrieve _ =>
      if isDeadline then true
      else if isRetrieve then true
      else false
  | _ => false
  end.

(** [ResponseRetryPolicy] ([backoff.go], lines 319-334): [Some err] when
    the response is to be retried, [None] for Go's nil. *)
Definition ResponseRetryPolicy (resp : http.Response) : option error :=
  if bool_decide (http.StatusCode resp ∈ RetryableSet) then
    Some (Errorf "status code retryable: %s" (http.Status resp))
  else if (http.StatusCode resp >=? 500)
          && negb (http.StatusCode resp =? http.StatusNotImplemented) then
    Some (Errorf "unexpected status code %s" (http.Status resp))
  else None.

(** The classification of a response: retryable when the policy returns
    an error, permanent (not retried) otherwise. *)
Definition retryable (resp : http.Response) : bool :=
  match ResponseRetryPolicy resp with Some _ => true | None => false end.

(** ** The scheduling library, [github.com/cenkalti/backoff/v4]

    The package imports the library ([backoff.go], line 12) and leaves the
    whole retry loop to it.  The definitions of this module follow the
    library's [exponential.go], [tries.go] and [retry.go].

    [float64] arithmetic is carried out on rationals.  With the library's
    constants every product and quotient the scheduler forms
    ([currentInterval * 1.5], [MaxInterval / 1.5]) is a multiple of 1/2
    below 2^53, so the [float64] results are exact and the rational
    model agrees with them; only the jitter ([random * (max - min + 1)])
    is rounded by the hardware and not here. *)
Module cenkalti.
Import time.

Definition Stop : Duration := -1.

Definition DefaultInitialInterval : Duration := 500 * Millisecond.
Definition DefaultRandomizationFactor : Q := 1 # 2.
Definition DefaultMultiplier : Q := 3 # 2.
Definition DefaultMaxInterval : Duration := 60 * Second.
Definition DefaultMaxElapsedTime : Duration := 15 * Minute.

(** [time.Duration(x)] for a [float64] [x]: truncation toward zero. *)
Definition Duration_of_float (x : Q) : Duration :=
  Z.quot (Qnum x) (Z.pos (Qden x)).

Record ExponentialBackOff := mkExponentialBackOff {
  InitialInterval : Duration;
  RandomizationFactor : Q;
  Multiplier : Q;
  MaxInterval : Duration;
  MaxElapsedTime : Duration;
  currentInterval : Duration;
  startTime : Z
}.

(** The [BackOff] interface with the two implementations the package
    builds: [ExponentialBackOff] and the [backOffTries] returned by
    [WithMaxRetries]. *)
Inductive BackOff :=
| Exponential (b : ExponentialBackOff)
| backOffTries (delegate : BackOff) (maxTries numTries : N).

(** [ExponentialBackOff.Reset], [now] being [b.Clock.Now()]. *)
Definition Exponential_Reset (now : Z) (b : ExponentialBackOff)
  : ExponentialBackOff :=
  mkExponentialBackOff (InitialInterval b) (RandomizationFactor b)
    (Multiplier b) (MaxInterval b) (MaxElapsedTime b)
    (InitialInterval b) now.

(** [NewExponentialBackOff()], called without options. *)
Definition NewExponentialBackOff (now : Z) : ExponentialBackOff :=
  Exponential_Reset now
    (mkExponentialBackOff DefaultInitialInterval DefaultRandomizationFactor
       DefaultMultiplier DefaultMaxInterval DefaultMaxElapsedTime 0 0).

(** [WithMaxRetries]. *)
Definition WithMaxRetries (b : BackOff) (max : N) : BackOff :=
  backOffTries b max 0.

(** [getRandomValueFromInterval]. *)
Definition getRandomValueFromInterval
    (randomizationFactor random : Q) (currentInterval : Duration)
  : Duration :=
  if Qeq_bool randomizationFactor 0 then currentInterval
  else
    let delta := (randomizationFactor * inject_Z currentInterval)%Q in
    let minInterval := (inject_Z currentInterval - delta)%Q in
    let maxInterval := (inject_Z currentInterval + delta)%Q in
    Duration_of_float
      (minInterval + random * (maxInterval - minInterval + 1))%Q.

(** [ExponentialBackOff.incrementCurrentInterval]. *)
Definition incrementCurrentInterval (b : ExponentialBackOff)
  : ExponentialBackOff :=
  let cur :=
    if Qle_bool (inject_Z (MaxInterval b) / Multiplier b)
                (inject_Z (currentInterval b))
    then MaxInterval b
    else Duration_of_float (inject_Z (currentInterval b) * Multiplier b)%Q in
  mkExponentialBackOff (InitialInterval b) (RandomizationFactor b)
    (Multiplier b) (MaxInterval b) (MaxElapsedTime b) cur (startTime b).

(** [ExponentialBackOff.NextBackOff]; [now] is the clock and
    [random] the value of [rand.Float64()]. *)
Definition Exponential_NextBackOff (now : Z) (random : Q)
    (b : ExponentialBackOff) : Duration * ExponentialBackOff :=
  let elapsed := now - startTime b in
  let next :=
    getRandomValueFromInterval (RandomizationFactor b) random
      (currentInterval b) in
  let b' := incrementCurrentInterval b in
  if negb (MaxElapsedTime b =? 0) && (elapsed + next >? MaxElapsedTime b)
  then (Stop, b')
  else (next, b').

(** [Reset] through the interface. *)
Fixpoint Reset (now : Z) (b : BackOff) : BackOff :=
  match b with
  | Exponential e => Exponential (Exponential_Reset now e)
  | backOffTries d maxTries _ => backOffTries (Reset now d) maxTries 0
  end.

(** [NextBackOff] through the interface.  The third component tells
    whether [rand.Float64()] was called. *)
Fixpoint NextBackOff (now : Z) (random : Q) (b : BackOff)
  : Duration * BackOff * bool :=
  match b with
  | Exponential e =>
      let '(d, e') := Exponential_NextBackOff now random e in
      (d, Exponential e', true)
  | backOffTries d maxTries numTries =>
      if (maxTries =? 0)%N then (Stop, b, false)
      else if (maxTries <=? numTries)%N then (Stop, b, false)
      else
        let '(next, d', drew) := NextBackOff now random d in
        (next, backOffTries d' maxTries (numTries + 1), drew)
  end.

(** [Permanent]: wraps an error so that the loop does not retry it. *)
Definition Permanent (err : error) : error := PermanentError err.
End cenkalti.

(** ** Configuration ([option.go]) *)

(** A hook is a function value supplied by the caller; the package only
    stores it and calls it.  [NoopFunc] is the empty closure installed by
    [NewBackoffClient]. *)
Inductive LogFunc :=
| NoopFunc
| CallerFunc (id : nat).

Record config := mkConfig {
  service : string;
  maxRetry : N;
  initialInterval : time.Duration;
  maxInterval : time.Duration;
  multiplier : Q;
  timeout : option time.Duration;
  client : http.ClientRef;
  RequestLogHook : LogFunc;
  ResponseLogHook : LogFunc;
  ErrorLogHook : LogFunc
}.

(** An [Option] is applied to the configuration under construction. *)
Definition Option := config -> config.

Definition apply (o : Option) (c : config) : config := o c.

Definition WithClient (cl : http.ClientRef) : Option := fun c =>
  mkConfig (service c) (maxRetry c) (initialInterval c) (maxInterval c)
    (multiplier c) (timeout c) cl
    (RequestLogHook c) (ResponseLogHook c) (ErrorLogHook c).

Definition WithService (s : string) : Option := fun c =>
  mkConfig s (maxRetry c) (initialInterval c) (maxInterval c)
    (multiplier c) (timeout c) (client c)
    (RequestLogHook c) (ResponseLogHook c) (ErrorLogHook c).

Definition WithTimeout (t : time.Duration) : Option := fun c =>
  mkConfig (service c) (maxRetry c) (initialInterval c) (maxInterval c)
    (multiplier c) (Some t) (client c)
    (RequestLogHook c) (ResponseLogHook c) (ErrorLogHook c).

Definition WithMaxRetry (max : N) : Option := fun c =>
  mkConfig (service c) max (initialInterval c) (maxInterval c)
    (multiplier c) (timeout c) (client c)
    (RequestLogHook c) (ResponseLogHook c) (ErrorLogHook c).

Definition WithInitialInterval (min : time.Duration) : Option := fun c =>
  mkConfig (service c) (maxRetry c) min (maxInterval c)
    (multiplier c) (timeout c) (client c)
    (RequestLogHook c) (ResponseLogHook c) (ErrorLogHook c).

Definition WithMaxInterval (max : time.Duration) : Option := fun c =>
  mkConfig (service c) (maxRetry c) (initialInterval c) max
    (multiplier c) (timeout c) (client c)
    (RequestLogHook c) (ResponseLogHook c) (ErrorLogHook c).

Definition WithMultiplier (m : Q) : Option := fun c =>
  mkConfig (service c) (maxRetry c) (initialInterval c) (maxInterval c)
    m (timeout c) (client c)
    (RequestLogHook c) (ResponseLogHook c) (ErrorLogHook c).

Definition WithRequestLogHook (hook : LogFunc) : Option := fun c =>
  mkConfig (service c) (maxRetry c) (initialInterval c) (maxInterval c)
    (multiplier c) (timeout c) (client c)
    hook (ResponseLogHook c) (ErrorLogHook c).

Definition WithResponseLogHook (hook : LogFunc) : Option := fun c =>
  mkConfig (service c) (maxRetry c) (initialInterval c) (maxInterval c)
    (multiplier c) (timeout c) (client c)
    (RequestLogHook c) hook (ErrorLogHook c).

Definition WithErrorLogHook (hook : LogFunc) : Option := fun c =>
  mkConfig (service c) (maxRetry c) (initialInterval c) (maxInterval c)
    (multiplier c) (timeout c) (client c)
    (RequestLogHook c) (ResponseLogHook c) hook.

(** ** The client ([backoff.go], lines 66-99) *)

(** [NewDefaultClient] allocates a client of its own. *)
Definition NewDefaultClient : http.ClientRef := http.NewClient 0.

(** [BackoffClient].  [Client] is the embedded [http.Client] pointer whose
    methods ([Do], [CloseIdleConnections]) the client promotes.
    [backOffStrategy] is the scheduler object the client points to: its
    methods mutate it in place, so [Execute] below hands the client back
    with the object as the call left it. *)
Record BackoffClient := mkBackoffClient {
  Client : http.ClientRef;
  cfg : config;
  backOffStrategy : cenkalti.BackOff
}.

(** [NewBackoffClient]; [now] is the clock read by
    [NewExponentialBackOff]. *)
Definition NewBackoffClient (now : Z) (opts : list Option) : BackoffClient :=
  let cfg0 :=
    mkConfig "http-client" DefaultMaxRetry DefaultInitialInterval
      DefaultMaxInterval DefaultMultiplier None NewDefaultClient
      NoopFunc NoopFunc NoopFunc in
  let cfg := fold_left (fun c opt => apply opt c) opts cfg0 in
  let backOffStrategy :=
    if (0 <? maxRetry cfg)%N then
      cenkalti.WithMaxRetries
        (cenkalti.Exponential (cenkalti.NewExponentialBackOff now))
        (maxRetry cfg)
    else cenkalti.Exponential (cenkalti.NewExponentialBackOff now) in
  mkBackoffClient http.DefaultClient cfg backOffStrategy.

(** ** The machine: clock, transport, random source, trace *)

(** The package's own [Response] ([backoff.go], lines 32-37): the body is
    held in memory. *)
Record Response := mkResponse {
  Status : string;
  StatusCode : Z;
  Header : gmap string (list string);
  Body : string
}.

(** What the program does to the outside, in the order it does it. *)
Inductive Event :=
| EvDo (cl : http.ClientRef) (deadline : option time.Duration)
       (r : http.Request) (call : nat)
| EvCloseIdleConnections (cl : http.ClientRef)
| EvBodyClose (resp : http.Response)
| EvRequestLogHook (h : LogFunc) (r : http.Request) (err : error)
                   (attempt : Z) (next : time.Duration)
| EvResponseLogHook (h : LogFunc) (r : http.Request) (w : http.Response)
                    (attempt : Z) (d : time.Duration)
| EvErrorLogHook (h : LogFunc) (r : http.Request) (err : error)
                 (attempt : Z) (d : time.Duration)
| EvSleep (d : time.Duration).

(** The environment, fixed for a run: what the [call]-th round trip of
    the process yields (depending on the client that performs it, the
    per-attempt timeout and the request) and how long it takes, and the
    [draw]-th value of the random source, as a numerator over 2^53. *)
Record Env := mkEnv {
  roundTrip : http.ClientRef -> option time.Duration -> http.Request ->
              nat -> http.Response + error;
  latency : nat -> time.Duration;
  randomSource : nat -> Z
}.

Record World := mkWorld {
  now : Z;
  calls : nat;
  draws : nat;
  trace : list Event
}.

Definition emit (e : Event) (w : World) : World :=
  mkWorld (now w) (calls w) (draws w) (trace w ++ [e]).

Definition advance (d : time.Duration) (w : World) : World :=
  mkWorld (now w + d) (calls w) (draws w) (trace w).

(** [rand.Float64()]: a multiple of 2^-53 in [0, 1). *)
Definition rand_Float64 (env : Env) (draw : nat) : Q :=
  (randomSource env draw mod 2 ^ 53) # (2 ^ 53).

(** [c.Do(r)] on the embedded client: one round trip. *)
Definition Do (env : Env) (cl : http.ClientRef)
    (deadline : option time.Duration) (r : http.Request) (w : World)
  : (http.Response + error) * World :=
  let k := calls w in
  let w1 := emit (EvDo cl deadline r k) w in
  let w2 := mkWorld (now w1 + latency env k) (S k) (draws w1) (trace w1) in
  (roundTrip env cl deadline r k, w2).

(** [io.ReadAll(resp.Body)]. *)
Definition io_ReadAll (b : http.BodyStream) : string + error :=
  match b with
  | http.BodyBytes bytes => inl bytes
  | http.BodyFails msg => inr (ReadError msg)
  end.

(** ** The execution loop ([backoff.go], lines 233-304) *)

(** [execute] (lines 276-304).  The deferred [CloseIdleConnections] runs
    when the function returns; the timeout, when configured, bounds the
    round trip through the request's context. *)
Definition execute (env : Env) (c : BackoffClient) (r : http.Request)
    (w : World) : (http.Response + error) * World :=
  let '(res, w1) := Do env (Client c) (timeout (cfg c)) r w in
  let out :=
    match res with
    | inr err =>
        if ErrorRetryPolicy err then inr (RetryableError None err)
        else inr err
    | inl resp =>
        match ResponseRetryPolicy resp with
        | Some err => inr (RetryableError (Some resp) err)
        | None => inl resp
        end
    end in
  (out, emit (EvCloseIdleConnections (Client c)) w1).

(** The closure [f] of [Execute] (lines 236-266): one attempt.  It shares
    the variable [attempt] with [notify]. *)
Definition f (env : Env) (c : BackoffClient) (r : http.Request)
    (attempt : Z) (w : World) : (Response + error) * Z * World :=
  let attempt := attempt + 1 in
  let startTime := now w in
  let '(res, w1) := execute env c r w in
  match res with
  | inr err =>
      let w2 :=
        emit (EvErrorLogHook (ErrorLogHook (cfg c)) r err attempt
                (now w1 - startTime)) w1 in
      if errors_Is_RetryableError err then (inr err, attempt, w2)
      else (inr (cenkalti.Permanent err), attempt, w2)
  | inl resp =>
      let w2 :=
        emit (EvResponseLogHook (ResponseLogHook (cfg c)) r resp attempt
                (now w1 - startTime)) w1 in
      match io_ReadAll (http.Body resp) with
      | inr err => (inr err, attempt, w2)
      | inl body =>
          (inl (mkResponse (http.Status resp) (http.StatusCode resp)
                  (http.Header resp) body),
           attempt, emit (EvBodyClose resp) w2)
      end
  end.

(** The closure [notify] of [Execute] (lines 268-270). *)
Definition notify (c : BackoffClient) (r : http.Request)
    (err : error) (next : time.Duration) (attempt : Z) (w : World) : World :=
  emit (EvRequestLogHook (RequestLogHook (cfg c)) r err attempt next) w.

(** [errors.As(err, &permanent)] of the library's loop: the first
    [PermanentError] on the [Unwrap] chain, if any. *)
Fixpoint errors_As_Permanent (err : error) : option error :=
  match err with
  | PermanentError e => Some e
  | RetryableError _ e => errors_As_Permanent e
  | _ => None
  end.

(** The library's loop, [doRetryNotify] of [retry.go], after its
    [b.Reset()].  [L] is the state the two closures share.  The context of
    both schedulers the package builds is [context.Background()], which is
    never done: the [ctx.Err()] test fails and the timer always fires.
    [fuel] bounds the number of attempts; [None] means it ran out. *)
Fixpoint retry_loop {T L : Type} (fuel : nat) (env : Env)
    (operation : L -> World -> (T + error) * L * World)
    (notify : error -> time.Duration -> L -> World -> World)
    (b : cenkalti.BackOff) (l : L) (w : World)
  : option ((T + error) * cenkalti.BackOff * L * World) :=
  match fuel with
  | O => None
  | S fuel' =>
      let '(res, l1, w1) := operation l w in
      match res with
      | inl v => Some (inl v, b, l1, w1)
      | inr err =>
          match errors_As_Permanent err with
          | Some perr => Some (inr perr, b, l1, w1)
          | None =>
              let '(next, b1, drew) :=
                cenkalti.NextBackOff (now w1) (rand_Float64 env (draws w1)) b in
              let w2 :=
                if drew
                then mkWorld (now w1) (calls w1) (S (draws w1)) (trace w1)
                else w1 in
              if next =? cenkalti.Stop then Some (inr err, b1, l1, w2)
              else
                let w3 := notify err next l1 w2 in
                let w4 := advance next (emit (EvSleep next) w3) in
                retry_loop fuel' env operation notify b1 l1 w4
          end
      end
  end.

(** [RetryNotifyWithData]: reset the scheduler, then loop. *)
Definition RetryNotifyWithData {T L : Type} (fuel : nat) (env : Env)
    (operation : L -> World -> (T + error) * L * World)
    (notify : error -> time.Duration -> L -> World -> World)
    (b : cenkalti.BackOff) (l : L) (w : World)
  : option ((T + error) * cenkalti.BackOff * L * World) :=
  retry_loop fuel env operation notify (cenkalti.Reset (now w) b) l w.

(** [Execute] (lines 234-273).  The result comes with the client, whose
    scheduler object the loop has mutated, the final value of [attempt]
    and the world. *)
Definition Execute (fuel : nat) (env : Env) (c : BackoffClient)
    (r : http.Request) (w : World)
  : option ((Response + error) * BackoffClient * Z * World) :=
  let attempt := 0 in
  match RetryNotifyWithData fuel env (f env c r) (notify c r)
          (backOffStrategy c) attempt w with
  | Some (res, b, attempt, w') =>
      Some (res, mkBackoffClient (Client c) (cfg c) b, attempt, w')
  | None => None
  end.

(** ** The request builder (second part of [backoff.go]) *)

(** A call either returns or panics. *)
Inductive Outcome (A : Type) :=
| Returns (a : A)
| Panics (msg : string).
Arguments Returns {A} a.
Arguments Panics {A} msg.

Definition bind {A B : Type} (o : Outcome A) (k : A -> Outcome B) : Outcome B :=
  match o with
  | Returns a => k a
  | Panics msg => Panics msg
  end.

Notation "x >>= k" := (bind x k) (at level 50, left associativity).

(** The functions of [net/url], [net/http] and [encoding/json] that the
    builder calls and whose bodies are not part of the package. *)
Class GoPackages := {
  any : Type;
  json_Marshal : any -> string + error;
  url_Parse : string -> url.URL + error;
  URL_String : url.URL -> string;
  url_QueryEscape : string -> string;
  http_validMethod : string -> bool;
  http_CanonicalHeaderKey : string -> string;
  http_removeEmptyPort : string -> string
}.

(** [url.Values] is a map type: [None] is the nil map, which can be read
    but not written. *)
Definition Values := option (gmap string (list string)).

Definition Values_len (v : Values) : nat :=
  match v with
  | None => 0%nat
  | Some m => size m
  end.

(** [Values.Add]: [v[key] = append(v[key], value)]. *)
Definition Values_Add (key value : string) (v : Values) : Outcome Values :=
  match v with
  | None => Panics "assignment to entry in nil map"
  | Some m => Returns (Some (<[key := default [] (m !! key) ++ [value]]> m))
  end.

Fixpoint insert_sorted (k : string) (l : list string) : list string :=
  match l with
  | [] => [k]
  | k' :: l' => if String.leb k k' then k :: l else k' :: insert_sorted k l'
  end.

(** [slices.Sort] on strings (byte-wise order). *)
Definition slices_Sort (l : list string) : list string :=
  foldr insert_sorted [] l.

Module Builder.
Section builder.
Context `{GoPackages}.

(** [Values.Encode]: keys sorted, [key=value] pairs joined by [&]. *)
Definition Values_Encode (v : Values) : string :=
match v with
| None => ""
| Some m =>
    if (size m =? 0)%nat then ""
    else
      let keys := slices_Sort (map fst (map_to_list m)) in
      foldl
        (fun buf k =>
           let vs := default [] (m !! k) in
           let keyEscaped := url_QueryEscape k in
           foldl
             (fun buf v =>
                (if (String.length buf =? 0)%nat then buf else buf +:+ "&")
                  +:+ keyEscaped +:+ "=" +:+ url_QueryEscape v)
             buf vs)
        "" keys
end.

Definition ContentTypeForm : string := "application/x-www-form-urlencoded".
Definition UserAgentHeader : string := http_CanonicalHeaderKey "User-Agent".
Definition ContentTypeHeader : string := http_CanonicalHeaderKey "Content-Type".

(** [RequestBuilder] (lines 375-382 of the second part). *)
Record RequestBuilder := mkRequestBuilder {
method : string;
url : string;
query : Values;
headers : option (gmap string string);
form : Values;
body : option Reader
}.

(** [NewRequestBuilder]: [query] and [headers] are allocated, [form] is
  left at its zero value, the nil map. *)
Definition NewRequestBuilder : RequestBuilder :=
mkRequestBuilder "" "" (Some ∅) (Some ∅) None None.

Definition Method (m : string) (rb : RequestBuilder) : RequestBuilder :=
mkRequestBuilder m (url rb) (query rb) (headers rb) (form rb) (body rb).

Definition URL (u : string) (rb : RequestBuilder) : RequestBuilder :=
mkRequestBuilder (method rb) u (query rb) (headers rb) (form rb) (body rb).

Definition set_query (q : Values) (rb : RequestBuilder) : RequestBuilder :=
mkRequestBuilder (method rb) (url rb) q (headers rb) (form rb) (body rb).

Definition set_headers (h : option (gmap string string)) (rb : RequestBuilder)
: RequestBuilder :=
mkRequestBuilder (method rb) (url rb) (query rb) h (form rb) (body rb).

Definition set_form (fm : Values) (rb : RequestBuilder) : RequestBuilder :=
mkRequestBuilder (method rb) (url rb) (query rb) (headers rb) fm (body rb).

Definition QueryParam (key value : string) (rb : RequestBuilder)
: Outcome RequestBuilder :=
Values_Add key value (query rb) >>= fun q => Returns (set_query q rb).

(** [Query]: in the last case [rb.query] is not empty, hence not nil. *)
Definition Query (q : Values) (rb : RequestBuilder) : RequestBuilder :=
if (Values_len q =? 0)%nat then rb
else if (Values_len (query rb) =? 0)%nat then set_query q rb
else
  set_query
    (Some (foldl (fun m kv => <[kv.1 := kv.2]> m)
             (default ∅ (query rb)) (map_to_list (default ∅ q))))
    rb.

(** The assignment [rb.headers[key] = value]. *)
Definition headers_store (key value : string) (rb : RequestBuilder)
: Outcome RequestBuilder :=
match headers rb with
| None => Panics "assignment to entry in nil map"
| Some h => Returns (set_headers (Some (<[key := value]> h)) rb)
end.

Definition Header (key value : string) (rb : RequestBuilder)
: Outcome RequestBuilder :=
headers_store key value rb.

Definition Headers (hs : gmap string string) (rb : RequestBuilder)
: Outcome RequestBuilder :=
foldl (fun o kv => o >>= headers_store kv.1 kv.2) (Returns rb)
  (map_to_list hs).

Definition ContentType (contentType : string) (rb : RequestBuilder)
: Outcome RequestBuilder :=
headers_store ContentTypeHeader contentType rb.

Definition UserAgent (userAgent : string) (rb : RequestBuilder)
: Outcome RequestBuilder :=
headers_store UserAgentHeader userAgent rb.

Definition Body (b : option Reader) (rb : RequestBuilder) : RequestBuilder :=
mkRequestBuilder (method rb) (url rb) (query rb) (headers rb) (form rb) b.

Definition BodyString (b : string) (rb : RequestBuilder) : RequestBuilder :=
Body (Some (strings_NewReader b)) rb.

Definition BodyBytes (b : string) (rb : RequestBuilder) : RequestBuilder :=
Body (Some (bytes_NewReader b)) rb.

(** [BodyJSON] (lines 472-479). *)
Definition BodyJSON (data : any) (rb : RequestBuilder) : RequestBuilder :=
match json_Marshal data with
| inr _ => rb
| inl buffer => Body (Some (bytes_NewBuffer buffer)) rb
end.

(** [PostForm] (lines 482-487): one [rb.form.Add] per entry of the
  argument.  The entries have distinct keys, so the order in which Go
  visits them does not change the outcome. *)
Definition PostForm (fm : gmap string string) (rb : RequestBuilder)
: Outcome RequestBuilder :=
foldl
  (fun o kv =>
     o >>= fun rb =>
     Values_Add kv.1 kv.2 (form rb) >>= fun v => Returns (set_form v rb))
  (Returns rb) (map_to_list fm).

(** [http.NewRequestWithContext], after [net/http]: the method defaults
  to GET and is validated, the context must not be nil, the URL string
  is parsed again. *)
Definition http_NewRequestWithContext (ctx : option nat)
  (method urlStr : string) (body : option Reader) : http.Request + error :=
let method := if String.eqb method "" then "GET" else method in
if negb (http_validMethod method) then
  inr (PackageError "net/http" "invalid method")
else
  match ctx with
  | None => inr (PackageError "net/http" "nil Context")
  | Some _ =>
      match url_Parse urlStr with
      | inr err => inr err
      | inl u =>
          let u' :=
            url.mkURL (url.Scheme u) (url.Opaque u) (url.User u)
              (http_removeEmptyPort (url.Host u)) (url.Path u)
              (url.RawPath u) (url.OmitHost u) (url.ForceQuery u)
              (url.RawQuery u) (url.Fragment u) (url.RawFragment u) in
          inl (http.mkRequest method u' ∅ body)
      end
  end.

(** [r.Header.Set(key, value)] for every entry of [rb.headers].  When
  two keys have the same canonical form the value that survives
  depends on the order in which Go visits the map. *)
Definition set_request_headers (hs : option (gmap string string))
  (r : http.Request) : http.Request :=
http.mkRequest (http.Method r) (http.URL r)
  (foldl (fun h kv => <[http_CanonicalHeaderKey kv.1 := [kv.2]]> h)
     (http.ReqHeader r) (map_to_list (default ∅ hs)))
  (http.ReqBody r).

(** [Build] (lines 490-518).  The builder comes back as [Build] left
  it: the form branch overwrites its method, header and body. *)
Definition Build (ctx : option nat) (rb : RequestBuilder)
: Outcome (RequestBuilder * (http.Request + error)) :=
match url_Parse (url rb) with
| inr err => Returns (rb, inr err)
| inl u =>
    let u := url.set_RawQuery (Values_Encode (query rb)) u in
    (if (0 <? Values_len (form rb))%nat then
       headers_store ContentTypeHeader ContentTypeForm
         (Method http.MethodPost rb) >>= fun rb1 =>
       Returns (Body (Some (strings_NewReader (Values_Encode (form rb)))) rb1)
     else Returns rb) >>= fun rb' =>
    match http_NewRequestWithContext ctx (method rb') (URL_String u)
            (body rb') with
    | inr err => Returns (rb', inr err)
    | inl r => Returns (rb', inl (set_request_headers (headers rb') r))
    end
end.
End builder.
End Builder.

(** ** Statements of the specification, as predicates *)

(** The status codes the specification calls retryable:
    {408, 425, 429} and [500, 600) without 501. *)
Definition spec_retryable_code (code : Z) : Prop :=
  code = 408 \/ code = 425 \/ code = 429 \/
  (500 <= code < 600 /\ code <> 501).

(** The status codes the classifier retries. *)
Definition code_retryable_code (code : Z) : Prop :=
  code = 408 \/ code = 425 \/ code = 429 \/
  (500 <= code /\ code <> 501).

Definition response_of_code (code : Z) : http.Response :=
  http.mkResponse "" code ∅ (http.BodyBytes "").

(** *** Backoff schedule *)

(** The exponential scheduler at the bottom of a [BackOff]. *)
Fixpoint exponential_of (b : cenkalti.BackOff) : cenkalti.ExponentialBackOff :=
  match b with
  | cenkalti.Exponential e => e
  | cenkalti.backOffTries d _ _ => exponential_of d
  end.

(** The wait the client's scheduler computes before retry [n] (counted
    from 1) when jitter is ignored: the current interval after a reset
    and [n - 1] increments. *)
Definition scheduled_wait (c : BackoffClient) (n : nat) : time.Duration :=
  cenkalti.currentInterval
    (Nat.iter (n - 1) cenkalti.incrementCurrentInterval
       (cenkalti.Exponential_Reset 0 (exponential_of (backOffStrategy c)))).

(** The wait the specification gives for retry [n]:
    clamp(initialInterval * multiplier^(n-1), initialInterval,
    maxInterval), from the configured values. *)
Definition spec_wait (cf : config) (n : nat) : Q :=
  let raw := (inject_Z (initialInterval cf)
              * Qpower (multiplier cf) (Z.of_nat (n - 1)))%Q in
  Qmin (Qmax raw (inject_Z (initialInterval cf))) (inject_Z (maxInterval cf)).

(** *** Traces *)

(** The clients that performed the round trips of a trace, in order. *)
Definition do_clients (tr : list Event) : list http.ClientRef :=
  omap (fun e => match e with EvDo cl _ _ _ => Some cl | _ => None end) tr.

(** The attempt numbers the after-response hook was called with. *)
Definition response_hook_attempts (tr : list Event) : list Z :=
  omap (fun e => match e with
                 | EvResponseLogHook _ _ _ attempt _ => Some attempt
                 | _ => None
                 end) tr.

(** The attempt numbers the on-error hook was called with. *)
Definition error_hook_attempts (tr : list Event) : list Z :=
  omap (fun e => match e with
                 | EvErrorLogHook _ _ _ attempt _ => Some attempt
                 | _ => None
                 end) tr.

(** The world after [execute]: one round trip by the embedded client,
    then the deferred [CloseIdleConnections]. *)
Definition after_execute (env : Env) (c : BackoffClient) (r : http.Request)
    (w : World) : World :=
  mkWorld (now w + latency env (calls w)) (S (calls w)) (draws w)
    (trace w ++ [EvDo (Client c) (timeout (cfg c)) r (calls w);
                 EvCloseIdleConnections (Client c)]).

(** The world after the scheduler was asked: one more draw when the
    exponential scheduler was reached. *)
Definition after_draw (drew : bool) (w : World) : World :=
  if drew then mkWorld (now w) (calls w) (S (draws w)) (trace w) else w.

(** The settings [NewExponentialBackOff] installs. *)
Definition default_settings (e : cenkalti.ExponentialBackOff) : Prop :=
  cenkalti.RandomizationFactor e = cenkalti.DefaultRandomizationFactor /\
  cenkalti.Multiplier e = cenkalti.DefaultMultiplier /\
  cenkalti.MaxInterval e = cenkalti.DefaultMaxInterval /\
  cenkalti.MaxElapsedTime e = cenkalti.DefaultMaxElapsedTime.

(** The longest wait the default scheduler can return: the jitter adds
    at most half of the largest interval, and less than one. *)
Definition longest_wait : time.Duration := 2 * cenkalti.DefaultMaxInterval + 1.

(** *** Overlapping calls

    [Execute] as a machine that takes one step at a time, so that two
    calls on the same client can take turns.  The steps are the ones of
    the loop: the reset, an attempt, the question to the scheduler with
    the notification, the sleep.  A call keeps [attempt] to itself; the
    scheduler object belongs to the client and is passed from step to
    step, whichever call takes it. *)

Inductive Phase :=
| AtReset
| AtAttempt
| AtNextBackOff (err : error)
| AtSleep (next : time.Duration)
| Finished (res : Response + error).

Record Invocation := mkInvocation {
  phase : Phase;
  attempt : Z
}.

Definition invoke : Invocation := mkInvocation AtReset 0.

Definition invocation_step (env : Env) (c : BackoffClient) (r : http.Request)
    (i : Invocation) (b : cenkalti.BackOff) (w : World)
  : Invocation * cenkalti.BackOff * World :=
  match phase i with
  | AtReset => (mkInvocation AtAttempt (attempt i), cenkalti.Reset (now w) b, w)
  | AtAttempt =>
      let '(res, attempt', w1) := f env c r (attempt i) w in
      match res with
      | inl v => (mkInvocation (Finished (inl v)) attempt', b, w1)
      | inr err =>
          match errors_As_Permanent err with
          | Some perr => (mkInvocation (Finished (inr perr)) attempt', b, w1)
          | None => (mkInvocation (AtNextBackOff err) attempt', b, w1)
          end
      end
  | AtNextBackOff err =>
      let '(next, b1, drew) :=
        cenkalti.NextBackOff (now w) (rand_Float64 env (draws w)) b in
      let w2 := after_draw drew w in
      if next =? cenkalti.Stop
      then (mkInvocation (Finished (inr err)) (attempt i), b1, w2)
      else (mkInvocation (AtSleep next) (attempt i), b1,
            emit (EvSleep next) (notify c r err next (attempt i) w2))
  | AtSleep next => (mkInvocation AtAttempt (attempt i), b, advance next w)
  | Finished _ => (i, b, w)
  end.

(** One call on its own, for [n] steps. *)
Fixpoint run_alone (n : nat) (env : Env) (c : BackoffClient) (r : http.Request)
    (i : Invocation) (b : cenkalti.BackOff) (w : World)
  : Invocation * cenkalti.BackOff * World :=
  match n with
  | O => (i, b, w)
  | S n' =>
      let '(i', b', w') := invocation_step env c r i b w in
      run_alone n' env c r i' b' w'
  end.

Inductive Turn := First | Second.

(** Two calls on the same client taking turns as the schedule says. *)
Fixpoint interleave (env : Env) (c : BackoffClient) (r1 r2 : http.Request)
    (schedule : list Turn) (i1 i2 : Invocation) (b : cenkalti.BackOff)
    (w : World) : Invocation * Invocation * cenkalti.BackOff * World :=
  match schedule with
  | [] => (i1, i2, b, w)
  | First :: rest =>
      let '(i1', b', w') := invocation_step env c r1 i1 b w in
      interleave env c r1 r2 rest i1' i2 b' w'
  | Second :: rest =>
      let '(i2', b', w') := invocation_step env c r2 i2 b w in
      interleave env c r1 r2 rest i1 i2' b' w'
  end.

(** The attempt numbers the before-retry hook was called with. *)
Definition request_hook_attempts (tr : list Event) : list Z :=
  omap (fun e => match e with
                 | EvRequestLogHook _ _ _ attempt _ => Some attempt
                 | _ => None
                 end) tr.

(** The attempt numbers either of the two per-attempt hooks (on-error,
    after-response) was called with. *)
Definition outcome_hook_attempts (tr : list Event) : list Z :=
  omap (fun e => match e with
                 | EvErrorLogHook _ _ _ attempt _ => Some attempt
                 | EvResponseLogHook _ _ _ attempt _ => Some attempt
                 | _ => None
                 end) tr.

(** The round trips of a trace: who made them, under which per-attempt
    timeout, with which request, as which call of the process. *)
Definition do_events (tr : list Event)
  : list (http.ClientRef * option time.Duration * http.Request * nat) :=
  omap (fun e => match e with
                 | EvDo cl d r k => Some (cl, d, r, k)
                 | _ => None
                 end) tr.

(** The waits of a trace. *)
Definition sleeps (tr : list Event) : list time.Duration :=
  omap (fun e => match e with EvSleep d => Some d | _ => None end) tr.

(** The numbers [a + 1, ..., a + n]. *)
Definition Zseq (a : Z) (n : nat) : list Z :=
  map (fun i => a + Z.of_nat i) (seq 1 n).

(** The error [execute] makes of the outcome of a round trip when the
    outcome is to be retried; [None] when it is not. *)
Definition retryable_error (o : http.Response + error) : option error :=
  match o with
  | inl resp =>
      match ResponseRetryPolicy resp with
      | Some err => Some (RetryableError (Some resp) err)
      | None => None
      end
  | inr err =>
      if ErrorRetryPolicy err then Some (RetryableError None err) else None
  end.

(** The client as [Execute] leaves it when the scheduler was reset and
    never asked. *)
Definition reset_client (c : BackoffClient) (w : World) : BackoffClient :=
  mkBackoffClient (Client c) (cfg c)
    (cenkalti.Reset (now w) (backOffStrategy c)).

(** The shortest wait the default scheduler can return: half of the
    initial interval. *)
Definition shortest_wait : time.Duration := 250 * time.Millisecond.

(** The two schedulers [NewBackoffClient] builds, around their
    exponential scheduler. *)
Inductive client_scheduler
  : cenkalti.BackOff -> cenkalti.ExponentialBackOff -> Prop :=
| scheduler_plain e : client_scheduler (cenkalti.Exponential e) e
| scheduler_counted e maxTries numTries :
    client_scheduler
      (cenkalti.backOffTries (cenkalti.Exponential e) maxTries numTries) e.

(** Attempts that suffice for any run: the scheduler's limit on the
    elapsed time divided by the shortest wait, and two. *)
Definition enough_fuel : nat := 3602.

(** What a caller and the outside world see of a run of [Execute]: the
    result, the state the scheduler is left in, the number of attempts
    and the world. *)
Definition observable
    (out : option ((Response + error) * BackoffClient * Z * World))
  : option ((Response + error) * cenkalti.BackOff * Z * World) :=
  match out with
  | Some (res, c', attempts, w') => Some (res, backOffStrategy c', attempts, w')
  | None => None
  end.

(** The errors of the transport are not the package's own wrappers:
    [c.Do] returns neither a [RetryableError] nor a [PermanentError]. *)
Definition transport_errors_plain (env : Env) : Prop :=
  forall cl d r k err,
    roundTrip env cl d r k = inr err ->
    errors_As_Permanent err = None /\ errors_Is_RetryableError err = false.

(** The elapsed time before which the default scheduler never stops:
    its limit less the longest jittered wait, 13.5 minutes. *)
Definition earliest_stop : time.Duration :=
  13 * time.Minute + 30 * time.Second.

(** *** Sample inputs *)

Definition sample_url : url.URL :=
  url.mkURL "http" "" None "example.test" "/" "" false false "" "" "".

Definition sample_request : http.Request :=
  http.mkRequest "GET" sample_url ∅ None.

Definition start : World := mkWorld 0 0 0 [].

Definition response_with (code : Z) (status : string) (b : http.BodyStream)
  : http.Response :=
  http.mkResponse status code ∅ b.

(** An endpoint that answers every request with 503, in 20ms. *)
Definition env_503 : Env :=
  mkEnv (fun _ _ _ _ =>
           inl (response_with 503 "503 Service Unavailable" (http.BodyBytes "")))
        (fun _ => 20 * time.Millisecond)
        (fun k => Z.of_nat k * 1234567890123457).

(** An endpoint that answers 503 once and 200 afterwards. *)
Definition env_503_then_200 : Env :=
  mkEnv (fun _ _ _ k =>
           match k with
           | O => inl (response_with 503 "503 Service Unavailable"
                         (http.BodyBytes ""))
           | _ => inl (response_with 200 "200 OK" (http.BodyBytes "ok"))
           end)
        (fun _ => 20 * time.Millisecond)
        (fun k => Z.of_nat k * 1234567890123457).

(** An endpoint that answers 200 every time; the body of the first
    response breaks off while it is read. *)
Definition env_body_fails_once : Env :=
  mkEnv (fun _ _ _ k =>
           match k with
           | O => inl (response_with 200 "200 OK"
                         (http.BodyFails "unexpected EOF"))
           | _ => inl (response_with 200 "200 OK" (http.BodyBytes "ok"))
           end)
        (fun _ => 20 * time.Millisecond)
        (fun k => Z.of_nat k * 1234567890123457).

(** Two transports: the one behind [http.DefaultClient] answers
    "default", every other client's answers "own". *)
Definition env_two_clients : Env :=
  mkEnv (fun cl _ _ _ =>
           match cl with
           | http.DefaultClient =>
               inl (response_with 200 "200 OK" (http.BodyBytes "default"))
           | http.NewClient _ =>
               inl (response_with 200 "200 OK" (http.BodyBytes "own"))
           end)
        (fun _ => 20 * time.Millisecond)
        (fun _ => 0).

(** An endpoint that answers 503 after five minutes, every time. *)
Definition env_slow_503 : Env :=
  mkEnv (fun _ _ _ _ =>
           inl (response_with 503 "503 Service Unavailable" (http.BodyBytes "")))
        (fun _ => 5 * time.Minute)
        (fun k => Z.of_nat k * 1234567890123457).

(** An endpoint that cannot be reached: every round trip fails with an
    error that is not a timeout. *)
Definition env_refused : Env :=
  mkEnv (fun _ _ _ _ => inr (TransportError false false "connection refused"))
        (fun _ => 1 * time.Millisecond)
        (fun _ => 0).

(** An endpoint that never answers in time: every round trip ends with
    the expiry of the deadline. *)
Definition env_deadline : Env :=
  mkEnv (fun _ _ _ _ =>
           inr (TransportError true false "context deadline exceeded"))
        (fun _ => 2 * time.Second)
        (fun k => Z.of_nat k * 1234567890123457).

(** *** The library's round trip

    What the theorem on [Build] asks of [net/url]: a URL that [url.Parse]
    produced, given an encoded query and printed by [URL.String], parses
    back with that query.  (The printer escapes the other components and
    the encoder escapes the query, so the first question mark of the
    printed URL is the one before the query.) *)
Definition RawQuery_round_trip `{GoPackages} : Prop :=
  forall (s : string) (u u' : url.URL) (v : Values),
    url_Parse s = inl u ->
    url_Parse (URL_String (url.set_RawQuery (Builder.Values_Encode v) u))
      = inl u' ->
    url.RawQuery u' = Builder.Values_Encode v.

(** *** Builders made through the package's functions *)

Section built_builders.
Context `{GoPackages}.

(** The builders a caller can hold: the one [NewRequestBuilder] returns
    and those the methods hand back when they return. *)
Inductive built : Builder.RequestBuilder -> Prop :=
| built_NewRequestBuilder : built Builder.NewRequestBuilder
| built_Method m rb : built rb -> built (Builder.Method m rb)
| built_URL u rb : built rb -> built (Builder.URL u rb)
| built_QueryParam k v rb rb' :
    built rb -> Builder.QueryParam k v rb = Returns rb' -> built rb'
| built_Query q rb : built rb -> built (Builder.Query q rb)
| built_Header k v rb rb' :
    built rb -> Builder.Header k v rb = Returns rb' -> built rb'
| built_Headers hs rb rb' :
    built rb -> Builder.Headers hs rb = Returns rb' -> built rb'
| built_ContentType ct rb rb' :
    built rb -> Builder.ContentType ct rb = Returns rb' -> built rb'
| built_UserAgent ua rb rb' :
    built rb -> Builder.UserAgent ua rb = Returns rb' -> built rb'
| built_Body b rb : built rb -> built (Builder.Body b rb)
| built_BodyString b rb : built rb -> built (Builder.BodyString b rb)
| built_BodyBytes b rb : built rb -> built (Builder.BodyBytes b rb)
| built_BodyJSON data rb : built rb -> built (Builder.BodyJSON data rb)
| built_PostForm fm rb rb' :
    built rb -> Builder.PostForm fm rb = Returns rb' -> built rb'
| built_Build ctx rb rb' res :
    built rb -> Builder.Build ctx rb = Returns (rb', res) -> built rb'.

End built_builders.

(** *** The request methods of the client ([backoff.go], lines 101-231)

    Each method builds a request and, when the build returned no error,
    hands it to [Execute].  A method returns the result with the client
    and the world; it panics when the builder does. *)
Module Methods.
Section methods.
Context `{GoPackages}.

(** The common tail: [if err != nil { return nil, err }; return
    c.Execute(req)]. *)
Definition send (fuel : nat) (env : Env) (c : BackoffClient) (w : World)
    (built : Builder.RequestBuilder * (http.Request + error))
  : Outcome (option ((Response + error) * BackoffClient * World)) :=
  match built.2 with
  | inr err => Returns (Some (inr err, c, w))
  | inl req =>
      Returns
        match Execute fuel env c req w with
        | Some (res, c', _, w') => Some (res, c', w')
        | None => None
        end
  end.

Definition Get (fuel : nat) (env : Env) (c : BackoffClient) (w : World)
    (ctx : option nat) (url : string) (headers : gmap string string) :=
  Builder.Headers headers
    (Builder.URL url (Builder.Method http.MethodGet Builder.NewRequestBuilder))
  >>= Builder.Build ctx >>= send fuel env c w.

Definition Post (fuel : nat) (env : Env) (c : BackoffClient) (w : World)
    (ctx : option nat) (url : string) (body : option Reader)
    (headers : gmap string string) :=
  Builder.Headers headers
    (Builder.Body body
       (Builder.URL url
          (Builder.Method http.MethodPost Builder.NewRequestBuilder)))
  >>= Builder.Build ctx >>= send fuel env c w.

Definition PostJSON (fuel : nat) (env : Env) (c : BackoffClient) (w : World)
    (ctx : option nat) (url : string) (body : any)
    (headers : gmap string string) :=
  Builder.Headers headers
    (Builder.BodyJSON body
       (Builder.URL url
          (Builder.Method http.MethodPost Builder.NewRequestBuilder)))
  >>= Builder.Build ctx >>= send fuel env c w.

Definition PostForm (fuel : nat) (env : Env) (c : BackoffClient) (w : World)
    (ctx : option nat) (url : string) (form : gmap string string)
    (headers : gmap string string) :=
  Builder.PostForm form
    (Builder.URL url
       (Builder.Method http.MethodPost Builder.NewRequestBuilder))
  >>= Builder.Headers headers >>= Builder.Build ctx >>= send fuel env c w.

Definition Put (fuel : nat) (env : Env) (c : BackoffClient) (w : World)
    (ctx : option nat) (url : string) (body : option Reader)
    (headers : gmap string string) :=
  Builder.Headers headers
    (Builder.Body body
       (Builder.URL url
          (Builder.Method http.MethodPut Builder.NewRequestBuilder)))
  >>= Builder.Build ctx >>= send fuel env c w.

Definition PutJSON (fuel : nat) (env : Env) (c : BackoffClient) (w : World)
    (ctx : option nat) (url : string) (body : any)
    (headers : gmap string string) :=
  Builder.Headers headers
    (Builder.BodyJSON body
       (Builder.URL url
          (Builder.Method http.MethodPut Builder.NewRequestBuilder)))
  >>= Builder.Build ctx >>= send fuel env c w.

Definition Patch (fuel : nat) (env : Env) (c : BackoffClient) (w : World)
    (ctx : option nat) (url : string) (body : option Reader)
    (headers : gmap string string) :=
  Builder.Headers headers
    (Builder.Body body
       (Builder.URL url
          (Builder.Method http.MethodPatch Builder.NewRequestBuilder)))
  >>= Builder.Build ctx >>= send fuel env c w.

Definition PatchJSON (fuel : nat) (env : Env) (c : BackoffClient) (w : World)
    (ctx : option nat) (url : string) (body : any)
    (headers : gmap string string) :=
  Builder.Headers headers
    (Builder.BodyJSON body
       (Builder.URL url
          (Builder.Method http.MethodPatch Builder.NewRequestBuilder)))
  >>= Builder.Build ctx >>= send fuel env c w.

Definition Delete (fuel : nat) (env : Env) (c : BackoffClient) (w : World)
    (ctx : option nat) (url : string) (headers : gmap string string) :=
  Builder.Headers headers
    (Builder.URL url
       (Builder.Method http.MethodDelete Builder.NewRequestBuilder))
  >>= Builder.Build ctx >>= send fuel env c w.

End methods.
End Methods.

(** *** A small instance of the library functions

    Enough of [net/url], [net/http] and [encoding/json] to run the
    builder: a URL is a path and a query separated by the first question
    mark, nothing is escaped, every method is valid, and the only value
    that cannot be marshalled is [None] (standing for a channel). *)

Fixpoint cut_query (s : string) : string * string :=
  match s with
  | EmptyString => (EmptyString, EmptyString)
  | String ch s' =>
      if Ascii.eqb ch "?"%char then (EmptyString, s')
      else let '(p, q) := cut_query s' in (String ch p, q)
  end.

Definition sample_Parse (s : string) : url.URL + error :=
  let '(p, q) := cut_query s in
  inl (url.mkURL "" "" None "" p "" false false q "" "").

Definition sample_String (u : url.URL) : string :=
  if String.eqb (url.RawQuery u) "" then url.Path u
  else url.Path u +:+ "?" +:+ url.RawQuery u.

Definition sample_Marshal (data : option string) : string + error :=
  match data with
  | Some s => inl s
  | None => inr (PackageError "encoding/json" "unsupported type: chan int")
  end.

Definition sample_packages : GoPackages :=
  Build_GoPackages (option string) sample_Marshal sample_Parse sample_String
    (fun s => s) (fun _ => true) (fun s => s) (fun s => s).

(** The form of the specification's round-trip property. *)
Definition sample_form : gmap string string := {[ "a" := "1"; "b" := "2" ]}.

(** A builder with one header, as [Header] leaves a new builder. *)
Definition sample_builder : Builder.RequestBuilder :=
  Builder.mkRequestBuilder "GET" "http://example.test/items?page=1" (Some ∅)
    (Some {[ "accept" := "text/plain" ]}) None None.

(** *** Proof steps *)

(** Case analysis on one turn of the loop in [Hrun]: the attempt
    succeeds, fails for good, is refused a retry, or is retried. *)
Ltac loop_cases Hrun :=
  cbn [retry_loop] in Hrun;
  match type of Hrun with
  | context [f ?env ?c ?r ?a ?w] =>
      let res := fresh "res" in
      let a1 := fresh "a1" in
      let w1 := fresh "w1" in
      let Hf := fresh "Hf" in
      destruct (f env c r a w) as [[res a1] w1] eqn:Hf;
      destruct res as [? | ?err];
      [| match type of Hrun with
         | context [errors_As_Permanent ?e] =>
             let Hperm := fresh "Hperm" in
             destruct (errors_As_Permanent e) as [?perr |] eqn:Hperm;
             [| match type of Hrun with
                | context [cenkalti.NextBackOff ?t ?x ?b] =>
                    let next := fresh "next" in
                    let b1 := fresh "b1" in
                    let drew := fresh "drew" in
                    let Hnext := fresh "Hnext" in
                    let Hstop := fresh "Hstop" in
                    destruct (cenkalti.NextBackOff t x b)
                      as [[next b1] drew] eqn:Hnext;
                    destruct (next =? cenkalti.Stop) eqn:Hstop
                end]
         end]
  end.

(** Projections of a trace distribute over the events added to it. *)
Ltac trace_simpl :=
  unfold do_clients, do_events, outcome_hook_attempts, request_hook_attempts,
    response_hook_attempts, error_hook_attempts, sleeps, notify, advance,
    after_draw, emit in *;
  cbn [trace calls now draws] in *;
  rewrite ?omap_app; cbn [omap list_omap mbind option_bind];
  rewrite ?app_nil_r.

(** * Theorems *)

(** ** Retry classifier *)

Lemma elem_of_RetryableSet (code : Z) :
  code ∈ RetryableSet <-> code = 408 \/ code = 425 \/ code = 429.
Proof.
  unfold RetryableSet, http.StatusRequestTimeout, http.StatusTooEarly,
    http.StatusTooManyRequests.
  rewrite !elem_of_union, !elem_of_singleton. tauto.
Qed.

Lemma retryable_code (resp : http.Response) :
  retryable resp = true <-> code_retryable_code (http.StatusCode resp).
Proof.
  unfold retryable, ResponseRetryPolicy, code_retryable_code,
    http.StatusNotImplemented.
  case_bool_decide as Hset.
  - apply elem_of_RetryableSet in Hset. split; [tauto | done].
  - rewrite elem_of_RetryableSet in Hset.
    destruct (Z.geb_spec (http.StatusCode resp) 500) as [Hge | Hlt];
      destruct (Z.eqb_spec (http.StatusCode resp) 501) as [Heq | Hne];
      simpl; split; try done; try tauto; try lia.
Qed.

(** C1 (as amended): a response is classified retryable exactly when its
    status code is 408, 425 or 429, or is at least 500 and not 501; there
    is no upper bound on the code.  Every other response is classified
    permanent: the policy returns nil. *)
Theorem ResponseRetryPolicy_retryable_iff (resp : http.Response) :
  (retryable resp = true <-> code_retryable_code (http.StatusCode resp)) /\
  (ResponseRetryPolicy resp = None <->
   ~ code_retryable_code (http.StatusCode resp)).
Proof.
  split; [apply retryable_code |].
  rewrite <- retryable_code. unfold retryable.
  destruct (ResponseRetryPolicy resp); split; done.
Qed.

(** C1, the claim as stated fails: status code 600 lies outside
    {408, 425, 429} and outside [500, 600), and the classifier retries
    it. *)
Lemma ResponseRetryPolicy_600_retryable :
  retryable (response_of_code 600) = true /\
  ~ spec_retryable_code (http.StatusCode (response_of_code 600)).
Proof.
  split.
  - vm_compute. reflexivity.
  - unfold spec_retryable_code. simpl. lia.
Qed.

(** On the status codes below 600 the classifier and the specification
    agree. *)
Lemma ResponseRetryPolicy_below_600 (resp : http.Response) :
  http.StatusCode resp < 600 ->
  (retryable resp = true <-> spec_retryable_code (http.StatusCode resp)).
Proof.
  intros Hlt. rewrite retryable_code.
  unfold code_retryable_code, spec_retryable_code. lia.
Qed.

(** ** Backoff schedule *)

Lemma fold_options_maxRetry_only (now : Z) (opts : list Option) :
  exponential_of (backOffStrategy (NewBackoffClient now opts)) =
  cenkalti.NewExponentialBackOff now.
Proof.
  unfold NewBackoffClient. simpl.
  destruct (0 <? maxRetry _)%N; reflexivity.
Qed.

(** C2, evaluated on the code: whatever options are given, the scheduler
    of the client is the library's default exponential scheduler
    (500ms, 1.5, 60s), so the waits do not depend on [WithInitialInterval],
    [WithMultiplier] or [WithMaxInterval].  With 1s, 2 and 10s configured,
    the wait before the first retry is 500ms where the specification
    gives 1s; with no option at all it is 500ms where the specification
    gives 100ms. *)
Theorem NewBackoffClient_schedule_ignores_options :
  (forall now opts n,
     scheduled_wait (NewBackoffClient now opts) n =
     scheduled_wait (NewBackoffClient now []) n) /\
  (let c := NewBackoffClient 0
              [WithInitialInterval (1 * time.Second); WithMultiplier 2;
               WithMaxInterval (10 * time.Second)] in
   scheduled_wait c 1 = 500 * time.Millisecond /\
   (spec_wait (cfg c) 1 == inject_Z (1 * time.Second))%Q) /\
  (let c := NewBackoffClient 0 [] in
   scheduled_wait c 1 = 500 * time.Millisecond /\
   (spec_wait (cfg c) 1 == inject_Z (100 * time.Millisecond))%Q).
Proof.
  split; [| split].
  - intros now opts n. unfold scheduled_wait.
    rewrite !fold_options_maxRetry_only. reflexivity.
  - split; vm_compute; reflexivity.
  - split; vm_compute; reflexivity.
Qed.

(** ** One attempt *)

(** What a single round trip changes in the world. *)
Lemma Do_world (env : Env) cl d r w :
  Do env cl d r w =
  (roundTrip env cl d r (calls w),
   mkWorld (now w + latency env (calls w)) (S (calls w)) (draws w)
     (trace w ++ [EvDo cl d r (calls w)])).
Proof. reflexivity. Qed.

Lemma execute_world (env : Env) c r w :
  (execute env c r w).2 = after_execute env c r w.
Proof.
  unfold execute, after_execute. rewrite Do_world.
  unfold emit. simpl. rewrite <- app_assoc. reflexivity.
Qed.

Lemma execute_retryable_response (env : Env) c r w resp err :
  roundTrip env (Client c) (timeout (cfg c)) r (calls w) = inl resp ->
  ResponseRetryPolicy resp = Some err ->
  execute env c r w =
  (inr (RetryableError (Some resp) err), after_execute env c r w).
Proof.
  intros Hrt Hpol. rewrite <- execute_world.
  unfold execute. rewrite Do_world, Hrt, Hpol. reflexivity.
Qed.

Lemma execute_final_response (env : Env) c r w resp :
  roundTrip env (Client c) (timeout (cfg c)) r (calls w) = inl resp ->
  ResponseRetryPolicy resp = None ->
  execute env c r w = (inl resp, after_execute env c r w).
Proof.
  intros Hrt Hpol. rewrite <- execute_world.
  unfold execute. rewrite Do_world, Hrt, Hpol. reflexivity.
Qed.

(** An attempt that meets a retryable response: the on-error hook is
    called, the error is handed to the loop unwrapped. *)
Lemma f_retryable_response (env : Env) c r attempt w resp err :
  roundTrip env (Client c) (timeout (cfg c)) r (calls w) = inl resp ->
  ResponseRetryPolicy resp = Some err ->
  f env c r attempt w =
  (inr (RetryableError (Some resp) err), attempt + 1,
   emit (EvErrorLogHook (ErrorLogHook (cfg c)) r
           (RetryableError (Some resp) err) (attempt + 1)
           (latency env (calls w)))
     (after_execute env c r w)).
Proof.
  intros Hrt Hpol. unfold f.
  rewrite (execute_retryable_response _ _ _ _ _ _ Hrt Hpol). simpl.
  repeat f_equal. lia.
Qed.

(** An attempt that meets a response the classifier lets through. *)
Lemma f_final_response (env : Env) c r attempt w resp :
  roundTrip env (Client c) (timeout (cfg c)) r (calls w) = inl resp ->
  ResponseRetryPolicy resp = None ->
  f env c r attempt w =
  let w2 :=
    emit (EvResponseLogHook (ResponseLogHook (cfg c)) r resp (attempt + 1)
            (latency env (calls w)))
      (after_execute env c r w) in
  match http.Body resp with
  | http.BodyFails msg => (inr (ReadError msg), attempt + 1, w2)
  | http.BodyBytes body =>
      (inl (mkResponse (http.Status resp) (http.StatusCode resp)
              (http.Header resp) body),
       attempt + 1, emit (EvBodyClose resp) w2)
  end.
Proof.
  intros Hrt Hpol. unfold f.
  rewrite (execute_final_response _ _ _ _ _ Hrt Hpol). simpl.
  replace (now w + latency env (calls w) - now w) with (latency env (calls w))
    by lia.
  destruct (http.Body resp); reflexivity.
Qed.

(** Every attempt makes exactly one round trip, by the embedded client. *)
Lemma f_world (env : Env) c r attempt w :
  let w' := (f env c r attempt w).2 in
  calls w' = S (calls w) /\
  draws w' = draws w /\
  now w' = now w + latency env (calls w) /\
  do_clients (trace w') = do_clients (trace w) ++ [Client c] /\
  (f env c r attempt w).1.2 = attempt + 1.
Proof.
  unfold f.
  pose proof (execute_world env c r w) as Hw.
  destruct (execute env c r w) as [res w1]. simpl in Hw. subst w1.
  destruct res as [resp | err].
  - destruct (io_ReadAll (http.Body resp)); simpl;
      unfold do_clients; rewrite ?omap_app; simpl;
      rewrite ?app_nil_r; auto.
  - destruct (errors_Is_RetryableError err); simpl;
      unfold do_clients; rewrite ?omap_app; simpl;
      rewrite ?app_nil_r; auto.
Qed.

(** ** The loop *)

(** The loop stops on success. *)
Lemma retry_loop_success {T L : Type} fuel env
    (operation : L -> World -> (T + error) * L * World) notify b l w v l1 w1 :
  operation l w = (inl v, l1, w1) ->
  retry_loop (S fuel) env operation notify b l w = Some (inl v, b, l1, w1).
Proof. intros Hop. simpl. rewrite Hop. reflexivity. Qed.

(** The loop stops on a permanent error and returns what it wraps. *)
Lemma retry_loop_permanent {T L : Type} fuel env
    (operation : L -> World -> (T + error) * L * World) notify b l w
    err perr l1 w1 :
  operation l w = (inr err, l1, w1) ->
  errors_As_Permanent err = Some perr ->
  retry_loop (S fuel) env operation notify b l w = Some (inr perr, b, l1, w1).
Proof. intros Hop Hperm. simpl. rewrite Hop, Hperm. reflexivity. Qed.

(** The loop stops when the scheduler says [Stop]. *)
Lemma retry_loop_stop {T L : Type} fuel env
    (operation : L -> World -> (T + error) * L * World) notify b l w
    err l1 w1 b1 drew :
  operation l w = (inr err, l1, w1) ->
  errors_As_Permanent err = None ->
  cenkalti.NextBackOff (now w1) (rand_Float64 env (draws w1)) b =
    (cenkalti.Stop, b1, drew) ->
  retry_loop (S fuel) env operation notify b l w =
  Some (inr err, b1, l1, after_draw drew w1).
Proof.
  intros Hop Hperm Hnext. simpl. rewrite Hop, Hperm, Hnext.
  destruct drew; reflexivity.
Qed.

(** Otherwise the loop notifies, sleeps and goes round again. *)
Lemma retry_loop_again {T L : Type} fuel env
    (operation : L -> World -> (T + error) * L * World) notify b l w
    err l1 w1 next b1 drew :
  operation l w = (inr err, l1, w1) ->
  errors_As_Permanent err = None ->
  cenkalti.NextBackOff (now w1) (rand_Float64 env (draws w1)) b =
    (next, b1, drew) ->
  next <> cenkalti.Stop ->
  retry_loop (S fuel) env operation notify b l w =
  retry_loop fuel env operation notify b1 l1
    (advance next (emit (EvSleep next) (notify err next l1 (after_draw drew w1)))).
Proof.
  intros Hop Hperm Hnext Hns. simpl. rewrite Hop, Hperm, Hnext.
  apply Z.eqb_neq in Hns. rewrite Hns.
  destruct drew; reflexivity.
Qed.

(** More fuel does not change a result. *)
Lemma retry_loop_fuel_mono {T L : Type} fuel fuel' env
    (operation : L -> World -> (T + error) * L * World) notify b l w out :
  (fuel <= fuel')%nat ->
  retry_loop fuel env operation notify b l w = Some out ->
  retry_loop fuel' env operation notify b l w = Some out.
Proof.
  revert fuel' b l w. induction fuel as [| fuel IH]; intros fuel' b l w Hle Hrun.
  - discriminate.
  - destruct fuel' as [| fuel']; [lia |].
    simpl in *. destruct (operation l w) as [[res l1] w1].
    destruct res as [v | err]; [exact Hrun |].
    destruct (errors_As_Permanent err); [exact Hrun |].
    destruct (cenkalti.NextBackOff _ _ b) as [[next b1] drew].
    destruct (next =? cenkalti.Stop); [exact Hrun |].
    apply IH; [lia | exact Hrun].
Qed.

(** Every round trip of a run of [Execute]'s loop is made by the
    client's embedded [http.Client]. *)
Lemma retry_loop_do_clients fuel env c r b attempt w res b' attempt' w' :
  retry_loop fuel env (f env c r) (notify c r) b attempt w =
    Some (res, b', attempt', w') ->
  (calls w <= calls w')%nat /\
  do_clients (trace w') =
  do_clients (trace w) ++ replicate (calls w' - calls w) (Client c) /\
  attempt' = attempt + Z.of_nat (calls w' - calls w).
Proof.
  revert b attempt w. induction fuel as [| fuel IH]; intros b attempt w Hrun.
  - discriminate.
  - simpl in Hrun.
    pose proof (f_world env c r attempt w) as (Hc & Hd & Hn & Htr & Ha).
    destruct (f env c r attempt w) as [[res1 a1] w1]. simpl in *.
    assert (Hone : (calls w1 <= calls w1)%nat /\
                   do_clients (trace w1) =
                   do_clients (trace w) ++
                     replicate (calls w1 - calls w) (Client c) /\
                   a1 = attempt + Z.of_nat (calls w1 - calls w)).
    { rewrite Hc. replace (S (calls w) - calls w)%nat with 1%nat by lia.
      simpl. repeat split; [lia | exact Htr | lia]. }
    destruct res1 as [v | err].
    { inversion Hrun; subst. rewrite Hc. split; [lia |].
      destruct Hone as (_ & ? & ?). rewrite Hc in *. auto. }
    destruct (errors_As_Permanent err).
    { inversion Hrun; subst. rewrite Hc. split; [lia |].
      destruct Hone as (_ & ? & ?). rewrite Hc in *. auto. }
    destruct (cenkalti.NextBackOff _ _ b) as [[next b1] drew].
    destruct (next =? cenkalti.Stop).
    { inversion Hrun; subst.
      destruct drew; simpl; rewrite Hc; (split; [lia |]);
        destruct Hone as (_ & ? & ?); rewrite Hc in *; auto. }
    apply IH in Hrun. clear IH.
    destruct Hrun as (Hle & Htr' & Ha').
    assert (Hcalls : calls (advance next (emit (EvSleep next)
                       (notify c r err next a1
                          (if drew
                           then mkWorld (now w1) (calls w1) (S (draws w1)) (trace w1)
                           else w1)))) = calls w1)
      by (destruct drew; reflexivity).
    assert (Htrace : do_clients (trace (advance next (emit (EvSleep next)
                       (notify c r err next a1
                          (if drew
                           then mkWorld (now w1) (calls w1) (S (draws w1)) (trace w1)
                           else w1))))) = do_clients (trace w1)).
    { destruct drew; simpl; unfold do_clients; rewrite !omap_app; simpl;
        rewrite !app_nil_r; reflexivity. }
    rewrite Hcalls in *. rewrite Htrace in Htr'.
    split; [lia |]. split.
    + rewrite Htr', Htr, <- app_assoc. f_equal.
      replace (calls w' - calls w)%nat with (S (calls w' - calls w1)) by lia.
      reflexivity.
    + subst a1. rewrite Ha'. lia.
Qed.

(** ** Which client performs the round trips *)

Lemma NewBackoffClient_Client (now : Z) (opts : list Option) :
  Client (NewBackoffClient now opts) = http.DefaultClient.
Proof. reflexivity. Qed.

Lemma Execute_do_clients fuel env c r w res c' attempt w' :
  Execute fuel env c r w = Some (res, c', attempt, w') ->
  do_clients (trace w') =
  do_clients (trace w) ++ replicate (calls w' - calls w) (Client c) /\
  attempt = Z.of_nat (calls w' - calls w).
Proof.
  unfold Execute, RetryNotifyWithData. intros Hrun.
  destruct (retry_loop _ _ _ _ _ _ _) as [[[[res1 b1] a1] w1] |] eqn:Hloop;
    [| discriminate].
  inversion Hrun; subst.
  apply retry_loop_do_clients in Hloop. destruct Hloop as (_ & Htr & Ha).
  split; [exact Htr | lia].
Qed.

(** C4, evaluated on the code: for every list of options, [WithClient]
    included, every round trip of [Execute] is made by the process-wide
    [http.DefaultClient]; the client given to [WithClient] is stored in
    the configuration and never used.  With [WithClient (NewClient 7)]
    and two transports that answer differently, the caller gets the
    default transport's answer. *)
Theorem Execute_ignores_WithClient :
  (forall fuel env now opts r w,
     match Execute fuel env (NewBackoffClient now opts) r w with
     | Some (_, _, _, w') =>
         do_clients (trace w') =
         do_clients (trace w) ++
           replicate (calls w' - calls w) http.DefaultClient
     | None => True
     end) /\
  (let c := NewBackoffClient 0 [WithClient (http.NewClient 7)] in
   client (cfg c) = http.NewClient 7 /\
   match Execute 5 env_two_clients c sample_request start with
   | Some (res, _, _, w') =>
       res = inl (mkResponse "200 OK" 200 ∅ "default") /\
       do_clients (trace w') = [http.DefaultClient]
   | None => False
   end).
Proof.
  split.
  - intros fuel env now0 opts r w.
    destruct (Execute _ _ _ _ _) as [[[[res c'] attempt] w'] |] eqn:Hrun;
      [| exact I].
    apply Execute_do_clients in Hrun. exact (proj1 Hrun).
  - vm_compute. repeat split; reflexivity.
Qed.

(** ** Hooks *)

(** C6, evaluated on the code: an attempt that produces a retryable
    response does not reach the after-response hook; [execute] turns the
    response into an error and [f] calls the on-error hook instead.  The
    attempt's events are the round trip, [CloseIdleConnections] and one
    call of the on-error hook. *)
Theorem f_retryable_response_skips_ResponseLogHook
    (env : Env) c r attempt w resp :
  roundTrip env (Client c) (timeout (cfg c)) r (calls w) = inl resp ->
  retryable resp = true ->
  let w' := (f env c r attempt w).2 in
  response_hook_attempts (trace w') = response_hook_attempts (trace w) /\
  error_hook_attempts (trace w') =
  error_hook_attempts (trace w) ++ [attempt + 1].
Proof.
  intros Hrt Hretry. unfold retryable in Hretry.
  destruct (ResponseRetryPolicy resp) as [err |] eqn:Hpol; [| discriminate].
  rewrite (f_retryable_response _ _ _ _ _ _ _ Hrt Hpol). simpl.
  unfold response_hook_attempts, error_hook_attempts.
  rewrite !omap_app. simpl. rewrite !app_nil_r. auto.
Qed.

Lemma f_retryable_response_skips_ResponseLogHook_witness :
  let w' := (f env_503 (NewBackoffClient 0 []) sample_request 0 start).2 in
  response_hook_attempts (trace w') = [] /\
  error_hook_attempts (trace w') = [1].
Proof.
  apply (f_retryable_response_skips_ResponseLogHook env_503
           (NewBackoffClient 0 []) sample_request 0 start
           (response_with 503 "503 Service Unavailable" (http.BodyBytes ""))).
  - reflexivity.
  - vm_compute. reflexivity.
Defined.

(** An attempt that produces a response the classifier lets through
    calls the after-response hook once, with the request, the response,
    the attempt number and the duration of the attempt. *)
Lemma f_final_response_calls_ResponseLogHook (env : Env) c r attempt w resp :
  roundTrip env (Client c) (timeout (cfg c)) r (calls w) = inl resp ->
  retryable resp = false ->
  exists rest,
    trace (f env c r attempt w).2 =
      trace (after_execute env c r w) ++
      EvResponseLogHook (ResponseLogHook (cfg c)) r resp (attempt + 1)
        (latency env (calls w)) :: rest /\
    response_hook_attempts rest = [].
Proof.
  intros Hrt Hretry. unfold retryable in Hretry.
  destruct (ResponseRetryPolicy resp) as [err |] eqn:Hpol; [discriminate |].
  rewrite (f_final_response _ _ _ _ _ _ Hrt Hpol). cbv zeta.
  destruct (http.Body resp).
  - exists [EvBodyClose resp]. split; [| reflexivity].
    simpl. rewrite <- app_assoc. reflexivity.
  - exists []. split; reflexivity.
Qed.

(** A whole run against an endpoint that answers 503, then 200: two
    attempts produce a response, the after-response hook is called for
    the second only. *)
Lemma Execute_503_then_200_hooks :
  match Execute 5 env_503_then_200 (NewBackoffClient 0 []) sample_request
          start with
  | Some (res, _, attempt, w') =>
      res = inl (mkResponse "200 OK" 200 ∅ "ok") /\
      attempt = 2 /\
      response_hook_attempts (trace w') = [2] /\
      error_hook_attempts (trace w') = [1]
  | None => False
  end.
Proof. vm_compute. repeat split; reflexivity. Qed.

(** ** Body-read failure *)

(** A body-read failure leaves [f] as a plain error, not wrapped by
    [Permanent]: the loop asks the scheduler and goes on. *)
Lemma f_body_read_failure (env : Env) c r attempt w resp msg :
  roundTrip env (Client c) (timeout (cfg c)) r (calls w) = inl resp ->
  ResponseRetryPolicy resp = None ->
  http.Body resp = http.BodyFails msg ->
  (f env c r attempt w).1.1 = inr (ReadError msg) /\
  errors_As_Permanent (ReadError msg) = None.
Proof.
  intros Hrt Hpol Hbody.
  rewrite (f_final_response _ _ _ _ _ _ Hrt Hpol). simpl.
  rewrite Hbody. auto.
Qed.

(** C7, evaluated on the code: the endpoint answers 200 and the body of
    the first response cannot be read.  [Execute] does not return the
    read error: it waits, makes a second round trip and returns its
    response. *)
Theorem Execute_retries_body_read_failure :
  match Execute 5 env_body_fails_once (NewBackoffClient 0 []) sample_request
          start with
  | Some (res, _, attempt, w') =>
      res = inl (mkResponse "200 OK" 200 ∅ "ok") /\
      attempt = 2 /\
      calls w' = 2%nat
  | None => False
  end.
Proof. vm_compute. repeat split; reflexivity. Qed.

(** ** The scheduler *)

Lemma Duration_of_float_bounds (x : Q) (hi : Z) :
  (0 <= x)%Q -> (x <= inject_Z hi)%Q ->
  0 <= cenkalti.Duration_of_float x <= hi.
Proof.
  intros H0 Hhi. unfold cenkalti.Duration_of_float.
  assert (Hn : 0 <= Qnum x) by (unfold Qle in H0; simpl in H0; lia).
  rewrite Z.quot_div_nonneg by lia.
  split.
  - apply Z.div_pos; lia.
  - apply Qfloor_resp_le in Hhi. rewrite Qfloor_Z in Hhi.
    destruct x; exact Hhi.
Qed.

Lemma rand_Float64_range (env : Env) (k : nat) :
  (0 <= rand_Float64 env k)%Q /\ (rand_Float64 env k < 1)%Q.
Proof.
  unfold rand_Float64, Qle, Qlt. simpl.
  pose proof (Z.mod_pos_bound (randomSource env k) (2 ^ 53) ltac:(lia)).
  change (Z.pos (2 ^ 53)) with (2 ^ 53). lia.
Qed.

(** With the default randomization factor the jittered wait lies
    between 0 and twice the current interval plus one. *)
Lemma getRandomValueFromInterval_bounds (random : Q) (cur : Z) :
  (0 <= random)%Q -> (random < 1)%Q -> 0 <= cur ->
  0 <= cenkalti.getRandomValueFromInterval (1 # 2) random cur <= 2 * cur + 1.
Proof.
  intros Hr0 Hr1 Hc.
  unfold cenkalti.getRandomValueFromInterval.
  change (Qeq_bool (1 # 2) 0) with false. cbv iota.
  assert (Hcq : (0 <= inject_Z cur)%Q) by (unfold Qle; simpl; lia).
  apply Duration_of_float_bounds.
  - nra.
  - rewrite inject_Z_plus, inject_Z_mult.
    change (inject_Z 2) with 2%Q. change (inject_Z 1) with 1%Q. nra.
Qed.

Lemma Duration_of_float_floor (x : Q) :
  (0 <= x)%Q ->
  (inject_Z (cenkalti.Duration_of_float x) <= x)%Q /\
  (x < inject_Z (cenkalti.Duration_of_float x + 1))%Q.
Proof.
  intros H0. unfold cenkalti.Duration_of_float.
  assert (Hn : 0 <= Qnum x) by (unfold Qle in H0; simpl in H0; lia).
  rewrite Z.quot_div_nonneg by lia.
  replace (Qnum x / Z.pos (Qden x)) with (Qfloor x) by (destruct x; reflexivity).
  split; [apply Qfloor_le | apply Qlt_floor].
Qed.

(** The jittered wait is the current interval give or take a half. *)
Lemma getRandomValueFromInterval_range (random : Q) (cur : Z) :
  (0 <= random)%Q -> (random < 1)%Q -> 0 <= cur ->
  cur - 1 <= 2 * cenkalti.getRandomValueFromInterval (1 # 2) random cur
    <= 3 * cur + 2.
Proof.
  intros Hr0 Hr1 Hc.
  unfold cenkalti.getRandomValueFromInterval.
  change (Qeq_bool (1 # 2) 0) with false. cbv iota.
  assert (Hcq : (0 <= inject_Z cur)%Q) by (unfold Qle; simpl; lia).
  set (x := (_ + random * _)%Q).
  assert (Hx0 : (0 <= x)%Q) by (unfold x; nra).
  assert (Hxlo : (inject_Z cur <= 2 * x)%Q) by (unfold x; nra).
  assert (Hxhi : (2 * x < 3 * inject_Z cur + 2)%Q) by (unfold x; nra).
  destruct (Duration_of_float_floor x Hx0) as [Hfl Hfu].
  set (j := cenkalti.Duration_of_float x) in *.
  rewrite inject_Z_plus in Hfu. change (inject_Z 1) with 1%Q in Hfu.
  split.
  - assert (Hlt : (inject_Z cur < inject_Z (2 * j + 2))%Q).
    { rewrite inject_Z_plus, inject_Z_mult.
      change (inject_Z 2) with 2%Q. nra. }
    rewrite <- Zlt_Qlt in Hlt. lia.
  - assert (Hlt : (inject_Z (2 * j) < inject_Z (3 * cur + 2))%Q).
    { rewrite inject_Z_plus, !inject_Z_mult.
      change (inject_Z 2) with 2%Q. change (inject_Z 3) with 3%Q. nra. }
    rewrite <- Zlt_Qlt in Hlt. lia.
Qed.

(** Whatever the options and whatever the jitter, the first wait of a
    run lies between 250ms and 750ms, unless the scheduler stops. *)
Lemma first_wait_range (now0 : Z) (opts : list Option) (started clock : Z)
    (random : Q) :
  (0 <= random)%Q -> (random < 1)%Q ->
  let next :=
    (cenkalti.Exponential_NextBackOff clock random
       (cenkalti.Exponential_Reset started
          (exponential_of (backOffStrategy (NewBackoffClient now0 opts))))).1 in
  next = cenkalti.Stop \/
  250 * time.Millisecond <= next <= 750 * time.Millisecond + 1.
Proof.
  intros Hr0 Hr1. cbv zeta. rewrite fold_options_maxRetry_only.
  unfold cenkalti.Exponential_NextBackOff.
  match goal with
  | |- context [if ?b then _ else _] => destruct b
  end; cbn [fst]; [left; reflexivity | right].
  change (cenkalti.RandomizationFactor _) with (1 # 2).
  change (cenkalti.currentInterval _) with cenkalti.DefaultInitialInterval.
  pose proof (getRandomValueFromInterval_range random
                cenkalti.DefaultInitialInterval Hr0 Hr1
                ltac:(vm_compute; discriminate)) as Hj.
  change cenkalti.DefaultRandomizationFactor with (1 # 2).
  change cenkalti.DefaultInitialInterval with 500000000 in *.
  change (250 * time.Millisecond) with 250000000.
  change (750 * time.Millisecond) with 750000000.
  lia.
Qed.

(** The current interval stays between 0 and the maximal interval. *)
Lemma incrementCurrentInterval_bounds (e : cenkalti.ExponentialBackOff) :
  default_settings e ->
  0 <= cenkalti.currentInterval e <= cenkalti.DefaultMaxInterval ->
  default_settings (cenkalti.incrementCurrentInterval e) /\
  cenkalti.startTime (cenkalti.incrementCurrentInterval e) =
    cenkalti.startTime e /\
  0 <= cenkalti.currentInterval (cenkalti.incrementCurrentInterval e)
    <= cenkalti.DefaultMaxInterval.
Proof.
  intros (Hrf & Hm & Hmax & Hel) Hcur.
  split; [repeat split; assumption |]. split; [reflexivity |].
  unfold cenkalti.incrementCurrentInterval. simpl. rewrite Hm, Hmax.
  destruct (Qle_bool _ _) eqn:Hcmp; [vm_compute; split; discriminate |].
  assert (Hlt : ~ (inject_Z cenkalti.DefaultMaxInterval
                   / cenkalti.DefaultMultiplier
                   <= inject_Z (cenkalti.currentInterval e))%Q).
  { rewrite <- Qle_bool_iff, Hcmp. discriminate. }
  apply Qnot_le_lt in Hlt.
  unfold cenkalti.DefaultMultiplier in *.
  assert (Hd : (inject_Z cenkalti.DefaultMaxInterval / (3 # 2) ==
                (2 # 3) * inject_Z cenkalti.DefaultMaxInterval)%Q)
    by (vm_compute; reflexivity).
  rewrite Hd in Hlt.
  assert (H0 : (0 <= inject_Z (cenkalti.currentInterval e))%Q)
    by (unfold Qle; simpl; lia).
  apply Duration_of_float_bounds; nra.
Qed.

(** The default exponential scheduler returns a wait, not [Stop], as
    long as the elapsed time leaves room for the longest wait. *)
Lemma Exponential_NextBackOff_in_budget (e : cenkalti.ExponentialBackOff)
    (clock : Z) (random : Q) :
  default_settings e ->
  0 <= cenkalti.currentInterval e <= cenkalti.DefaultMaxInterval ->
  (0 <= random)%Q -> (random < 1)%Q ->
  clock - cenkalti.startTime e + longest_wait <= cenkalti.DefaultMaxElapsedTime ->
  exists next,
    cenkalti.Exponential_NextBackOff clock random e =
      (next, cenkalti.incrementCurrentInterval e) /\
    0 <= next <= longest_wait.
Proof.
  intros (Hrf & Hm & Hmax & Hel) Hcur Hr0 Hr1 Hbudget.
  pose proof (getRandomValueFromInterval_bounds random
                (cenkalti.currentInterval e) Hr0 Hr1 (proj1 Hcur)) as Hj.
  unfold cenkalti.Exponential_NextBackOff. rewrite Hrf, Hel.
  change cenkalti.DefaultRandomizationFactor with (1 # 2).
  set (next := cenkalti.getRandomValueFromInterval _ _ _) in *.
  assert (Hnext : 0 <= next <= longest_wait) by (unfold longest_wait; lia).
  exists next. split; [| exact Hnext].
  replace (clock - cenkalti.startTime e + next >? cenkalti.DefaultMaxElapsedTime)
    with false by (symmetry; rewrite Z.gtb_ltb; apply Z.ltb_ge; lia).
  rewrite andb_false_r. reflexivity.
Qed.

(** [WithMaxRetries]: below the limit the count goes up and the
    delegate answers; at the limit the answer is [Stop]. *)
Lemma backOffTries_NextBackOff_below clock random d maxTries numTries :
  (numTries < maxTries)%N ->
  cenkalti.NextBackOff clock random (cenkalti.backOffTries d maxTries numTries) =
  let '(next, d', drew) := cenkalti.NextBackOff clock random d in
  (next, cenkalti.backOffTries d' maxTries (numTries + 1), drew).
Proof.
  intros Hlt. simpl.
  replace (maxTries =? 0)%N with false by (symmetry; apply N.eqb_neq; lia).
  replace (maxTries <=? numTries)%N with false
    by (symmetry; apply N.leb_gt; lia).
  reflexivity.
Qed.

Lemma backOffTries_NextBackOff_at_limit clock random d maxTries numTries :
  (maxTries <= numTries)%N ->
  cenkalti.NextBackOff clock random (cenkalti.backOffTries d maxTries numTries) =
  (cenkalti.Stop, cenkalti.backOffTries d maxTries numTries, false).
Proof.
  intros Hle. simpl.
  destruct (maxTries =? 0)%N; [reflexivity |].
  replace (maxTries <=? numTries)%N with true
    by (symmetry; apply N.leb_le; lia).
  reflexivity.
Qed.


(** The error the policy makes is a plain one. *)
Lemma ResponseRetryPolicy_not_permanent (resp : http.Response) (err : error) :
  ResponseRetryPolicy resp = Some err ->
  errors_As_Permanent (RetryableError (Some resp) err) = None.
Proof.
  unfold ResponseRetryPolicy. intros Hpol.
  destruct (bool_decide _); [inversion Hpol; reflexivity |].
  destruct (_ && _); inversion Hpol; reflexivity.
Qed.


(** ** Retry budget *)

Lemma NewBackoffClient_strategy (now0 : Z) (opts : list Option) :
  backOffStrategy (NewBackoffClient now0 opts) =
  if (0 <? maxRetry (cfg (NewBackoffClient now0 opts)))%N then
    cenkalti.backOffTries
      (cenkalti.Exponential (cenkalti.NewExponentialBackOff now0))
      (maxRetry (cfg (NewBackoffClient now0 opts))) 0
  else cenkalti.Exponential (cenkalti.NewExponentialBackOff now0).
Proof. reflexivity. Qed.



(** ** Where the backoff state lives *)

Lemma Reset_Reset (t t' : Z) (b : cenkalti.BackOff) :
  cenkalti.Reset t (cenkalti.Reset t' b) = cenkalti.Reset t b.
Proof.
  induction b as [e | d IH maxTries numTries]; simpl.
  - reflexivity.
  - rewrite IH. reflexivity.
Qed.

(** Asking the scheduler changes nothing that a reset does not undo. *)
Lemma Reset_NextBackOff (t clock : Z) (random : Q) (b : cenkalti.BackOff) :
  cenkalti.Reset t (cenkalti.NextBackOff clock random b).1.2 =
  cenkalti.Reset t b.
Proof.
  induction b as [e | d IH maxTries numTries]; simpl.
  - unfold cenkalti.Exponential_NextBackOff.
    destruct (_ && _); reflexivity.
  - destruct (maxTries =? 0)%N; [reflexivity |].
    destruct (maxTries <=? numTries)%N; [reflexivity |].
    destruct (cenkalti.NextBackOff clock random d) as [[next d'] drew].
    simpl in *. rewrite IH. reflexivity.
Qed.

Lemma retry_loop_Reset {T L : Type} fuel env
    (operation : L -> World -> (T + error) * L * World) notify b l w
    res b' l' w' (t : Z) :
  retry_loop fuel env operation notify b l w = Some (res, b', l', w') ->
  cenkalti.Reset t b' = cenkalti.Reset t b.
Proof.
  revert b l w. induction fuel as [| fuel IH]; intros b l w Hrun.
  - discriminate.
  - simpl in Hrun. destruct (operation l w) as [[res1 l1] w1].
    destruct res1 as [v | err]; [inversion Hrun; reflexivity |].
    destruct (errors_As_Permanent err); [inversion Hrun; reflexivity |].
    pose proof (Reset_NextBackOff t (now w1) (rand_Float64 env (draws w1)) b)
      as Hnext.
    destruct (cenkalti.NextBackOff _ _ b) as [[next b1] drew]. simpl in Hnext.
    destruct (next =? cenkalti.Stop).
    + inversion Hrun; subst. exact Hnext.
    + apply IH in Hrun. rewrite Hrun. exact Hnext.
Qed.

(** [Execute] hands the client back with the same embedded client, the
    same configuration and a scheduler that resets to the same state. *)
Lemma Execute_client fuel env c r w res c' attempt w' :
  Execute fuel env c r w = Some (res, c', attempt, w') ->
  Client c' = Client c /\ cfg c' = cfg c /\
  forall t, cenkalti.Reset t (backOffStrategy c') =
            cenkalti.Reset t (backOffStrategy c).
Proof.
  unfold Execute, RetryNotifyWithData. intros Hrun.
  destruct (retry_loop _ _ _ _ _ _ _) as [[[[res1 b1] a1] w1] |] eqn:Hloop;
    [| discriminate].
  inversion Hrun; subst. simpl. repeat split.
  intros t. rewrite (retry_loop_Reset _ _ _ _ _ _ _ _ _ _ _ t Hloop).
  apply Reset_Reset.
Qed.

(** A client whose scheduler resets to the same state is the same
    client to [Execute]. *)
Lemma Execute_after_Reset fuel env c c' r w :
  Client c' = Client c ->
  cfg c' = cfg c ->
  cenkalti.Reset (now w) (backOffStrategy c') =
    cenkalti.Reset (now w) (backOffStrategy c) ->
  Execute fuel env c' r w = Execute fuel env c r w.
Proof.
  destruct c as [cl cf b], c' as [cl' cf' b']. simpl.
  intros -> -> Hreset.
  unfold Execute, RetryNotifyWithData. simpl. rewrite Hreset. reflexivity.
Qed.

(** C5 (as amended): [Execute] resets the backoff state when it starts.
    A call made after an earlier call on the same client has returned
    behaves exactly as it would on the client as it was before the
    earlier call: nothing of the current interval, the start time or the
    retry count is carried over. *)
Theorem Execute_resets_backoff_state (fuel1 fuel2 : nat) (env : Env)
    (c : BackoffClient) (r1 r2 : http.Request) (w : World)
    res1 c1 attempt1 w1 :
  Execute fuel1 env c r1 w = Some (res1, c1, attempt1, w1) ->
  Execute fuel2 env c1 r2 w1 = Execute fuel2 env c r2 w1.
Proof.
  intros Hfirst.
  destruct (Execute_client _ _ _ _ _ _ _ _ _ Hfirst) as (Hcl & Hcf & Hreset).
  apply Execute_after_Reset; auto.
Qed.

Lemma Execute_resets_backoff_state_witness :
  match Execute 5 env_503 (NewBackoffClient 0 [WithMaxRetry 1])
          sample_request start with
  | Some (_, c1, _, w1) =>
      Execute 5 env_503 c1 sample_request w1 =
      Execute 5 env_503 (NewBackoffClient 0 [WithMaxRetry 1]) sample_request w1
  | None => False
  end.
Proof.
  destruct (Execute 5 env_503 (NewBackoffClient 0 [WithMaxRetry 1])
              sample_request start)
    as [[[[res1 c1] attempt1] w1] |] eqn:Hfirst.
  - exact (Execute_resets_backoff_state 5 5 env_503
             (NewBackoffClient 0 [WithMaxRetry 1]) sample_request
             sample_request start res1 c1 attempt1 w1 Hfirst).
  - vm_compute in Hfirst. discriminate Hfirst.
Defined.

(** Running one call alone, step by step, is [Execute]'s loop. *)
Lemma run_alone_retry_loop fuel env c r b a w res b' a' w' :
  retry_loop fuel env (f env c r) (notify c r) b a w =
    Some (res, b', a', w') ->
  exists n,
    run_alone n env c r (mkInvocation AtAttempt a) b w =
    (mkInvocation (Finished res) a', b', w').
Proof.
  revert b a w. induction fuel as [| fuel IH]; intros b a w Hrun.
  - discriminate.
  - cbn [retry_loop] in Hrun.
    destruct (f env c r a w) as [[res1 a1] w1] eqn:Hf.
    destruct res1 as [v | err].
    { inversion Hrun; subst. exists 1%nat.
      cbn [run_alone]. unfold invocation_step. cbn [phase attempt].
      rewrite Hf. reflexivity. }
    destruct (errors_As_Permanent err) as [perr |] eqn:Hperm.
    { inversion Hrun; subst. exists 1%nat.
      cbn [run_alone]. unfold invocation_step. cbn [phase attempt].
      rewrite Hf, Hperm. reflexivity. }
    destruct (cenkalti.NextBackOff (now w1) (rand_Float64 env (draws w1)) b)
      as [[next b1] drew] eqn:Hnext.
    destruct (next =? cenkalti.Stop) eqn:Hstop.
    { inversion Hrun; subst. exists 2%nat.
      cbn [run_alone]. unfold invocation_step. cbn [phase attempt].
      rewrite Hf, Hperm. cbn [phase attempt].
      rewrite Hnext, Hstop. reflexivity. }
    apply IH in Hrun. destruct Hrun as [n Hn].
    exists (S (S (S n))).
    cbn [run_alone]. unfold invocation_step at 1. cbn [phase attempt].
    rewrite Hf, Hperm.
    unfold invocation_step at 1. cbn [phase attempt].
    rewrite Hnext, Hstop.
    unfold invocation_step at 1. cbn [phase attempt].
    destruct drew; exact Hn.
Qed.

Lemma run_alone_Execute fuel env c r w res c' attempt' w' :
  Execute fuel env c r w = Some (res, c', attempt', w') ->
  exists n,
    run_alone n env c r invoke (backOffStrategy c) w =
    (mkInvocation (Finished res) attempt', backOffStrategy c', w').
Proof.
  unfold Execute, RetryNotifyWithData. intros Hrun.
  destruct (retry_loop _ _ _ _ _ _ _) as [[[[res1 b1] a1] w1] |] eqn:Hloop;
    [| discriminate].
  inversion Hrun; subst.
  apply run_alone_retry_loop in Hloop. destruct Hloop as [n Hn].
  exists (S n). simpl. exact Hn.
Qed.

(** A schedule that only ever lets the first call move is that call
    running alone. *)
Lemma interleave_first_only n env c r1 r2 i1 i2 b w :
  interleave env c r1 r2 (replicate n First) i1 i2 b w =
  let '(i1', b', w') := run_alone n env c r1 i1 b w in (i1', i2, b', w').
Proof.
  revert i1 b w. induction n as [| n IH]; intros i1 b w; simpl.
  - reflexivity.
  - destruct (invocation_step env c r1 i1 b w) as [[i1' b'] w'].
    apply IH.
Qed.

(** C5, the claim as stated fails for calls that overlap.  The client
    allows one retry and the endpoint answers 503.  A call on its own
    makes two attempts.  When a second call on the same client resets
    the scheduler and takes the retry while the first is between its
    attempt and its question to the scheduler, the first call is told
    [Stop] and returns after a single attempt: the retry count it reads
    is the one the second call wrote. *)
Lemma Execute_overlapping_calls_share_backoff_state :
  let c := NewBackoffClient 0 [WithMaxRetry 1] in
  let alone :=
    run_alone 6 env_503 c sample_request invoke (backOffStrategy c) start in
  let both :=
    interleave env_503 c sample_request sample_request
      [First; First; Second; Second; Second; First]
      invoke invoke (backOffStrategy c) start in
  (exists res, phase (fst (fst alone)) = Finished (inr res)) /\
  (attempt (fst (fst alone)) = 2) /\
  (exists res, phase (fst (fst (fst both))) = Finished (inr res)) /\
  (attempt (fst (fst (fst both))) = 1) /\
  (snd (fst both) =
   cenkalti.backOffTries
     (cenkalti.Exponential
        (cenkalti.incrementCurrentInterval
           (cenkalti.Exponential_Reset (20 * time.Millisecond)
              (cenkalti.NewExponentialBackOff 0))))
     1 1).
Proof.
  vm_compute. repeat split; try reflexivity; eexists; reflexivity.
Qed.

(** ** Request builder *)

Lemma foldl_bind_Panics {A B : Type} (step : A -> B -> Outcome A)
    (msg : string) (l : list B) :
  foldl (fun o x => o >>= fun a => step a x) (Panics msg) l = Panics msg.
Proof. induction l as [| x l IH]; simpl; [reflexivity | exact IH]. Qed.

(** The builders the package hands out have no form map: no method
    allocates one. *)
Lemma PostForm_nil_form (fm : gmap string string) (rb : Builder.RequestBuilder) :
  Builder.form rb = None ->
  fm <> ∅ ->
  Builder.PostForm fm rb = Panics "assignment to entry in nil map".
Proof.
  intros Hnil Hne. unfold Builder.PostForm.
  destruct (map_to_list fm) as [| kv l] eqn:Hl.
  - apply map_to_list_empty_iff in Hl. contradiction.
  - simpl. rewrite Hnil. simpl.
    apply (foldl_bind_Panics
             (fun rb kv =>
                Values_Add kv.1 kv.2 (Builder.form rb) >>= fun v =>
                Returns (Builder.set_form v rb))).
Qed.

Section builder_theorems.
Context `{GoPackages}.

(** C8, evaluated on the code: on a builder made by [NewRequestBuilder],
    [PostForm] with a form that has at least one entry panics, because
    the builder's form map was never allocated; [Build] is not reached,
    so no request, form-encoded or other, is produced. *)
Theorem PostForm_panics (fm : gmap string string) (ctx : option nat) :
  fm <> ∅ ->
  Builder.PostForm fm Builder.NewRequestBuilder =
    Panics "assignment to entry in nil map" /\
  (Builder.PostForm fm Builder.NewRequestBuilder >>= Builder.Build ctx) =
    Panics "assignment to entry in nil map".
Proof.
  intros Hne.
  rewrite (PostForm_nil_form fm Builder.NewRequestBuilder eq_refl Hne).
  split; reflexivity.
Qed.

(** C9: when [json.Marshal] fails, [BodyJSON] returns the builder as it
    was, body included, and [Build] afterwards gives what it gives
    without the call: no trace of the failed encoding is left to
    report. *)
Theorem BodyJSON_marshal_failure (data : any) (err : error)
    (rb : Builder.RequestBuilder) :
  json_Marshal data = inr err ->
  Builder.BodyJSON data rb = rb /\
  Builder.body (Builder.BodyJSON data rb) = Builder.body rb /\
  forall ctx, Builder.Build ctx (Builder.BodyJSON data rb) = Builder.Build ctx rb.
Proof.
  intros Hfail. unfold Builder.BodyJSON. rewrite Hfail. auto.
Qed.

End builder_theorems.

Lemma sample_form_not_empty : sample_form <> ∅.
Proof. unfold sample_form. apply insert_non_empty. Qed.

Lemma PostForm_panics_witness :
  Builder.PostForm sample_form Builder.NewRequestBuilder =
    Panics "assignment to entry in nil map" /\
  (Builder.PostForm sample_form Builder.NewRequestBuilder
     >>= @Builder.Build sample_packages (Some 0%nat)) =
    Panics "assignment to entry in nil map".
Proof.
  apply (@PostForm_panics sample_packages sample_form (Some 0%nat)).
  exact sample_form_not_empty.
Defined.

Lemma BodyJSON_marshal_failure_witness :
  let rb := Builder.BodyString "kept" Builder.NewRequestBuilder in
  @Builder.BodyJSON sample_packages None rb = rb /\
  Builder.body (@Builder.BodyJSON sample_packages None rb) = Builder.body rb /\
  forall ctx,
    @Builder.Build sample_packages ctx (@Builder.BodyJSON sample_packages None rb) =
    @Builder.Build sample_packages ctx rb.
Proof.
  exact (@BodyJSON_marshal_failure sample_packages None
           (PackageError "encoding/json" "unsupported type: chan int")
           (Builder.BodyString "kept" Builder.NewRequestBuilder) eq_refl).
Defined.

Section build_query.
Context `{GoPackages}.

Lemma Values_Encode_empty (v : Values) :
  Values_len v = 0%nat -> Builder.Values_Encode v = "".
Proof.
  destruct v as [m |]; simpl; [| reflexivity].
  intros ->. reflexivity.
Qed.

Lemma set_request_headers_URL hs (r : http.Request) :
  http.URL (Builder.set_request_headers hs r) = http.URL r.
Proof. reflexivity. Qed.

Lemma http_NewRequestWithContext_URL ctx method urlStr body r :
  Builder.http_NewRequestWithContext ctx method urlStr body = inl r ->
  exists u, url_Parse urlStr = inl u /\
            url.RawQuery (http.URL r) = url.RawQuery u.
Proof.
  unfold Builder.http_NewRequestWithContext.
  destruct (negb _); [discriminate |].
  destruct ctx; [| discriminate].
  destruct (url_Parse urlStr) as [u | err]; [| discriminate].
  intros Hr. inversion Hr; subst. exists u. split; reflexivity.
Qed.

(** What [Build] hands to [http.NewRequestWithContext]: the parsed
    target with its query replaced. *)
Lemma Build_request ctx (rb rb' : Builder.RequestBuilder) (r : http.Request) :
  Builder.Build ctx rb = Returns (rb', inl r) ->
  exists u r0,
    url_Parse (Builder.url rb) = inl u /\
    Builder.http_NewRequestWithContext ctx (Builder.method rb')
      (URL_String (url.set_RawQuery (Builder.Values_Encode (Builder.query rb)) u))
      (Builder.body rb') = inl r0 /\
    r = Builder.set_request_headers (Builder.headers rb') r0.
Proof.
  unfold Builder.Build.
  destruct (url_Parse (Builder.url rb)) as [u | err]; [| discriminate].
  match goal with
  | |- (?o >>= _) = _ -> _ => destruct o as [rb1 | msg]
  end; simpl; [| discriminate].
  destruct (Builder.http_NewRequestWithContext _ _ _ _) as [r0 | err] eqn:Hnew;
    intros Hb; inversion Hb; subst.
  exists u, r0. auto.
Qed.

(** C10: the query of the request [Build] returns is the encoding of the
    builder's accumulated query values, whatever query the URL string
    given to [URL] carried; with no value accumulated it is empty. *)
Theorem Build_replaces_query ctx (rb rb' : Builder.RequestBuilder)
    (r : http.Request) :
  RawQuery_round_trip ->
  Builder.Build ctx rb = Returns (rb', inl r) ->
  (exists u r0,
      url_Parse (Builder.url rb) = inl u /\
      Builder.http_NewRequestWithContext ctx (Builder.method rb')
        (URL_String
           (url.set_RawQuery (Builder.Values_Encode (Builder.query rb)) u))
        (Builder.body rb') = inl r0 /\
      r = Builder.set_request_headers (Builder.headers rb') r0) /\
  url.RawQuery (http.URL r) = Builder.Values_Encode (Builder.query rb) /\
  (Values_len (Builder.query rb) = 0%nat -> url.RawQuery (http.URL r) = "").
Proof.
  intros Hrt Hbuild.
  split; [exact (Build_request _ _ _ _ Hbuild) |].
  destruct (Build_request _ _ _ _ Hbuild) as (u & r0 & Hparse & Hnew & ->).
  apply http_NewRequestWithContext_URL in Hnew.
  destruct Hnew as (u' & Hparse' & Hq).
  assert (Hquery : url.RawQuery (http.URL (Builder.set_request_headers
                     (Builder.headers rb') r0)) =
                   Builder.Values_Encode (Builder.query rb)).
  { rewrite set_request_headers_URL, Hq.
    exact (Hrt _ _ _ _ Hparse Hparse'). }
  split; [exact Hquery |].
  intros Hlen. rewrite Hquery. apply Values_Encode_empty. exact Hlen.
Qed.

End build_query.

(** The small instance has the round-trip property. *)
Lemma cut_query_prefix (s p q : string) :
  cut_query s = (p, q) -> cut_query p = (p, EmptyString).
Proof.
  revert p q. induction s as [| ch s IH]; intros p q; simpl.
  - intros Hc. inversion Hc. reflexivity.
  - destruct (Ascii.eqb ch "?"%char) eqn:Hch.
    + intros Hc. inversion Hc. reflexivity.
    + destruct (cut_query s) as [p1 q1]. intros Hc.
      specialize (IH p1 q1 eq_refl). inversion Hc; subst.
      simpl. rewrite Hch, IH. reflexivity.
Qed.

Lemma cut_query_app (p q : string) :
  cut_query p = (p, EmptyString) ->
  cut_query (p +:+ String "?"%char q) = (p, q).
Proof.
  induction p as [| ch p IH]; simpl.
  - reflexivity.
  - destruct (Ascii.eqb ch "?"%char); [discriminate |].
    destruct (cut_query p) as [p1 q1]. intros Hc. inversion Hc; subst.
    rewrite IH by (f_equal; assumption). congruence.
Qed.

Lemma sample_round_trip : @RawQuery_round_trip sample_packages.
Proof.
  intros s u u' v. simpl.
  generalize (@Builder.Values_Encode sample_packages v). intros q.
  unfold sample_Parse.
  destruct (cut_query s) as [p q0] eqn:Hcut. intros Hu. inversion Hu; subst u.
  apply cut_query_prefix in Hcut.
  unfold sample_String. simpl.
  destruct (String.eqb q "") eqn:Hq.
  - apply String.eqb_eq in Hq. subst q. rewrite Hcut.
    intros Hu'. inversion Hu'. reflexivity.
  - change (p +:+ "?" +:+ q) with (p +:+ String "?"%char q).
    rewrite (cut_query_app p q Hcut).
    intros Hu'. inversion Hu'. reflexivity.
Qed.

Lemma Build_replaces_query_witness :
  match @Builder.Build sample_packages (Some 0%nat)
          (Builder.URL "http://example.test/search?x=1"
             (Builder.Method "GET" Builder.NewRequestBuilder)) with
  | Returns (_, inl r) =>
      url.RawQuery (http.URL r) =
        @Builder.Values_Encode sample_packages
          (Builder.query
             (Builder.URL "http://example.test/search?x=1"
                (Builder.Method "GET" Builder.NewRequestBuilder))) /\
      url.RawQuery (http.URL r) = ""
  | _ => False
  end.
Proof.
  destruct (@Builder.Build sample_packages (Some 0%nat)
              (Builder.URL "http://example.test/search?x=1"
                 (Builder.Method "GET" Builder.NewRequestBuilder)))
    as [[rb' [r | err]] | msg] eqn:Hbuild.
  - destruct (@Build_replaces_query sample_packages (Some 0%nat) _ rb' r
                sample_round_trip Hbuild) as (_ & Hq & Hempty).
    split; [exact Hq | apply Hempty; reflexivity].
  - vm_compute in Hbuild. discriminate Hbuild.
  - vm_compute in Hbuild. discriminate Hbuild.
Defined.

(** With parameters added, the query of the request is their encoding
    and the query of the URL string is gone. *)
Example Build_query_example :
  match Builder.QueryParam "page" "2"
          (Builder.URL "http://example.test/search?x=1"
             (Builder.Method "GET" Builder.NewRequestBuilder))
        >>= @Builder.Build sample_packages (Some 0%nat) with
  | Returns (_, inl r) => url.RawQuery (http.URL r) = "page=2"
  | _ => False
  end.
Proof. vm_compute. reflexivity. Qed.

(** * Further properties of the package *)

(** ** Traces of a run *)

(** What one attempt adds to the trace: one round trip by the embedded
    client under the configured timeout, and one call of exactly one of
    the two per-attempt hooks, with the attempt's number. *)
Lemma f_trace (env : Env) c r a w :
  let w1 := (f env c r a w).2 in
  do_events (trace w1) =
    do_events (trace w) ++ [(Client c, timeout (cfg c), r, calls w)] /\
  outcome_hook_attempts (trace w1) = outcome_hook_attempts (trace w) ++ [a + 1] /\
  request_hook_attempts (trace w1) = request_hook_attempts (trace w) /\
  sleeps (trace w1) = sleeps (trace w).
Proof.
  unfold f.
  pose proof (execute_world env c r w) as Hw.
  destruct (execute env c r w) as [res w1]. simpl in Hw. subst w1.
  destruct res as [resp | err].
  - destruct (io_ReadAll (http.Body resp)); cbn [snd];
      unfold after_execute; trace_simpl; auto.
  - destruct (errors_Is_RetryableError err); cbn [snd];
      unfold after_execute; trace_simpl; auto.
Qed.

Lemma Zseq_cons (a : Z) (n : nat) : Zseq a (S n) = (a + 1) :: Zseq (a + 1) n.
Proof.
  unfold Zseq. cbn [seq map]. f_equal.
  rewrite <- seq_shift, map_map. apply map_ext. intros i. lia.
Qed.

Lemma calls_seq_cons {A : Type} (g : nat -> A) (k n : nat) :
  map (fun i => g (k + i)%nat) (seq 0 (S n)) =
  g k :: map (fun i => g (S k + i)%nat) (seq 0 n).
Proof.
  cbn [seq map]. rewrite Nat.add_0_r. f_equal.
  rewrite <- seq_shift, map_map. apply map_ext. intros i.
  f_equal. lia.
Qed.

(** The shape of every finished run of [Execute]'s loop, whatever the
    environment: [n + 1] attempts numbered from [a + 1], each with one
    round trip and one per-attempt hook call, and between two attempts
    one call of the before-retry hook and one sleep. *)
Lemma retry_loop_trace fuel env c r b a w res b' a' w' :
  retry_loop fuel env (f env c r) (notify c r) b a w = Some (res, b', a', w') ->
  exists n,
    calls w' = (calls w + S n)%nat /\
    a' = a + Z.of_nat (S n) /\
    do_events (trace w') =
      do_events (trace w) ++
      map (fun i => (Client c, timeout (cfg c), r, (calls w + i)%nat))
        (seq 0 (S n)) /\
    outcome_hook_attempts (trace w') =
      outcome_hook_attempts (trace w) ++ Zseq a (S n) /\
    request_hook_attempts (trace w') =
      request_hook_attempts (trace w) ++ Zseq a n /\
    length (sleeps (trace w')) = (length (sleeps (trace w)) + n)%nat.
Proof.
  revert b a w. induction fuel as [| fuel IH]; intros b a w Hrun;
    [discriminate |].
  pose proof (f_world env c r a w) as (Hc & _ & _ & _ & Ha).
  pose proof (f_trace env c r a w) as (Hdo & Hout & Hreq & Hsl).
  assert (Hlast : forall w2,
             calls w2 = calls (f env c r a w).2 ->
             trace w2 = trace (f env c r a w).2 ->
             calls w2 = (calls w + 1)%nat /\
             (f env c r a w).1.2 = a + Z.of_nat 1 /\
             do_events (trace w2) =
               do_events (trace w) ++
               map (fun i => (Client c, timeout (cfg c), r, (calls w + i)%nat))
                 (seq 0 1) /\
             outcome_hook_attempts (trace w2) =
               outcome_hook_attempts (trace w) ++ Zseq a 1 /\
             request_hook_attempts (trace w2) =
               request_hook_attempts (trace w) ++ Zseq a 0 /\
             length (sleeps (trace w2)) = (length (sleeps (trace w)) + 0)%nat).
  { intros w2 Hc2 Ht2. rewrite Hc2, Ht2, Hc, Ha, Hdo, Hout, Hreq, Hsl.
    cbn [seq map Zseq]. rewrite Nat.add_0_r, app_nil_r.
    repeat split; try reflexivity; lia. }
  loop_cases Hrun; cbn [fst snd] in *.
  - inversion Hrun; subst. exists 0%nat. apply Hlast; reflexivity.
  - inversion Hrun; subst. exists 0%nat. apply Hlast; reflexivity.
  - inversion Hrun; subst. exists 0%nat.
    apply Hlast; destruct drew; reflexivity.
  - apply IH in Hrun. clear IH Hlast.
    destruct Hrun as (n & Hc' & Ha' & Hdo' & Hout' & Hreq' & Hsl').
    exists (S n).
    assert (Hcalls4 : calls (advance next (emit (EvSleep next)
                        (notify c r err next a1
                           (if drew
                            then mkWorld (now w1) (calls w1) (S (draws w1))
                                   (trace w1)
                            else w1)))) = S (calls w))
      by (rewrite <- Hc; destruct drew; reflexivity).
    rewrite Hcalls4 in *.
    assert (Htr4 : trace (advance next (emit (EvSleep next)
                     (notify c r err next a1
                        (if drew
                         then mkWorld (now w1) (calls w1) (S (draws w1))
                                (trace w1)
                         else w1)))) =
                   trace w1 ++ [EvRequestLogHook (RequestLogHook (cfg c)) r err
                                  a1 next; EvSleep next]).
    { destruct drew; unfold notify, advance, emit; cbn [trace];
        rewrite <- app_assoc; reflexivity. }
    rewrite Htr4 in *. clear Htr4 Hcalls4.
    subst a1.
    split; [lia |]. split; [lia |].
    split; [| split; [| split]].
    + rewrite Hdo'. unfold do_events at 1. rewrite omap_app.
      cbn [omap list_omap mbind option_bind]. rewrite app_nil_r.
      fold (do_events (trace w1)). rewrite Hdo, <- app_assoc.
      f_equal. rewrite (calls_seq_cons
        (fun k => (Client c, timeout (cfg c), r, k)) (calls w) (S n)).
      reflexivity.
    + rewrite Hout'. unfold outcome_hook_attempts at 1. rewrite omap_app.
      cbn [omap list_omap mbind option_bind]. rewrite app_nil_r.
      fold (outcome_hook_attempts (trace w1)). rewrite Hout, <- app_assoc.
      f_equal. rewrite (Zseq_cons a (S n)). reflexivity.
    + rewrite Hreq'. unfold request_hook_attempts at 1. rewrite omap_app.
      cbn [omap list_omap mbind option_bind].
      fold (request_hook_attempts (trace w1)). rewrite Hreq, <- app_assoc.
      f_equal. rewrite (Zseq_cons a n). reflexivity.
    + rewrite Hsl'. unfold sleeps at 1. rewrite omap_app.
      cbn [omap list_omap mbind option_bind].
      fold (sleeps (trace w1)). rewrite Hsl, length_app. simpl. lia.
Qed.



(** X2: every round trip of a run of [Execute] is made with the request
    given to [Execute], unchanged from attempt to attempt, under the
    configured per-attempt timeout, by the embedded client; the round
    trips follow one another (no two calls of the run overlap). *)
Theorem Execute_round_trips fuel env c r w res c' attempts w' :
  Execute fuel env c r w = Some (res, c', attempts, w') ->
  (calls w < calls w')%nat /\
  do_events (trace w') =
    do_events (trace w) ++
    map (fun i => (Client c, timeout (cfg c), r, (calls w + i)%nat))
      (seq 0 (calls w' - calls w)).
Proof.
  unfold Execute, RetryNotifyWithData. intros Hrun.
  destruct (retry_loop _ _ _ _ _ _ _) as [[[[res1 b1] a1] w1] |] eqn:Hloop;
    [| discriminate].
  inversion Hrun; subst.
  apply retry_loop_trace in Hloop.
  destruct Hloop as (n & Hc & _ & Hdo & _).
  split; [lia |].
  rewrite Hdo, Hc.
  replace (calls w + S n - calls w)%nat with (S n) by lia.
  reflexivity.
Qed.

Lemma Execute_round_trips_witness :
  match Execute 5 env_503_then_200
          (NewBackoffClient 0 [WithTimeout (3 * time.Second)]) sample_request
          start with
  | Some (_, _, _, w') =>
      (calls start < calls w')%nat /\
      do_events (trace w') =
        do_events (trace start) ++
        map (fun i => (http.DefaultClient, Some (3 * time.Second),
                       sample_request, (calls start + i)%nat))
          (seq 0 (calls w' - calls start))
  | None => False
  end.
Proof.
  destruct (Execute 5 env_503_then_200
              (NewBackoffClient 0 [WithTimeout (3 * time.Second)])
              sample_request start) as [[[[res c'] attempts] w'] |] eqn:Hrun.
  - exact (Execute_round_trips _ _ _ _ _ _ _ _ _ Hrun).
  - vm_compute in Hrun. discriminate Hrun.
Defined.

(** ** Outcomes that end a run at once *)

(** X3: when the first round trip yields a response the classifier does
    not retry (any 2xx, 3xx, 501, or 4xx other than 408, 425, 429) and
    its body can be read, [Execute] returns it as a [Response] with a nil
    error after that single round trip: status, code and header are
    copied and the body is the bytes read.  The after-response hook is
    called once, the body is closed, the scheduler is reset and never
    asked, nothing sleeps; the retry budget plays no part. *)
Theorem Execute_final_response_at_once fuel env c r w resp body :
  roundTrip env (Client c) (timeout (cfg c)) r (calls w) = inl resp ->
  retryable resp = false ->
  http.Body resp = http.BodyBytes body ->
  Execute (S fuel) env c r w =
  Some (inl (mkResponse (http.Status resp) (http.StatusCode resp)
               (http.Header resp) body),
        reset_client c w, 1,
        emit (EvBodyClose resp)
          (emit (EvResponseLogHook (ResponseLogHook (cfg c)) r resp 1
                   (latency env (calls w)))
             (after_execute env c r w))).
Proof.
  intros Hrt Hretry Hbody. unfold retryable in Hretry.
  destruct (ResponseRetryPolicy resp) as [err |] eqn:Hpol; [discriminate |].
  pose proof (f_final_response env c r 0 w resp Hrt Hpol) as Hf.
  cbv zeta in Hf. rewrite Hbody in Hf.
  unfold Execute, RetryNotifyWithData.
  rewrite (retry_loop_success fuel env _ _ _ _ _ _ _ _ Hf).
  reflexivity.
Qed.

Lemma Execute_final_response_at_once_witness :
  Execute 1 env_two_clients (NewBackoffClient 0 [WithMaxRetry 3])
    sample_request start =
  Some (inl (mkResponse "200 OK" 200 ∅ "default"),
        reset_client (NewBackoffClient 0 [WithMaxRetry 3]) start, 1,
        emit (EvBodyClose
                (response_with 200 "200 OK" (http.BodyBytes "default")))
          (emit (EvResponseLogHook NoopFunc sample_request
                   (response_with 200 "200 OK" (http.BodyBytes "default")) 1
                   (20 * time.Millisecond))
             (after_execute env_two_clients
                (NewBackoffClient 0 [WithMaxRetry 3]) sample_request start))).
Proof.
  apply (Execute_final_response_at_once 0 env_two_clients
           (NewBackoffClient 0 [WithMaxRetry 3]) sample_request start
           (response_with 200 "200 OK" (http.BodyBytes "default")) "default").
  - reflexivity.
  - vm_compute. reflexivity.
  - reflexivity.
Defined.

(** X4: when the first round trip fails with a transport error that is
    neither a deadline expiry nor a token-retrieval failure, [Execute]
    returns that very error (the [Permanent] wrapper the closure puts
    around it is taken off by the loop) after that single round trip.
    The on-error hook is called once, the scheduler is never asked, and
    the retry budget plays no part. *)
Theorem Execute_permanent_transport_error fuel env c r w msg :
  roundTrip env (Client c) (timeout (cfg c)) r (calls w) =
    inr (TransportError false false msg) ->
  Execute (S fuel) env c r w =
  Some (inr (TransportError false false msg), reset_client c w, 1,
        emit (EvErrorLogHook (ErrorLogHook (cfg c)) r
                (TransportError false false msg) 1 (latency env (calls w)))
          (after_execute env c r w)).
Proof.
  intros Hrt.
  assert (Hf : f env c r 0 w =
               (inr (cenkalti.Permanent (TransportError false false msg)), 1,
                emit (EvErrorLogHook (ErrorLogHook (cfg c)) r
                        (TransportError false false msg) 1
                        (latency env (calls w)))
                  (after_execute env c r w))).
  { unfold f.
    assert (He : execute env c r w =
                 (inr (TransportError false false msg), after_execute env c r w)).
    { rewrite <- execute_world. unfold execute. rewrite Do_world, Hrt.
      reflexivity. }
    rewrite He. cbn [errors_Is_RetryableError].
    unfold after_execute at 1. cbn [now].
    replace (now w + latency env (calls w) - now w)
      with (latency env (calls w)) by lia.
    reflexivity. }
  unfold Execute, RetryNotifyWithData.
  rewrite (retry_loop_permanent fuel env _ _ _ _ _ _ _ _ _ Hf eq_refl).
  reflexivity.
Qed.

Lemma Execute_permanent_transport_error_witness :
  Execute 1 env_refused (NewBackoffClient 0 [WithMaxRetry 3]) sample_request
    start =
  Some (inr (TransportError false false "connection refused"),
        reset_client (NewBackoffClient 0 [WithMaxRetry 3]) start, 1,
        emit (EvErrorLogHook NoopFunc sample_request
                (TransportError false false "connection refused") 1
                (1 * time.Millisecond))
          (after_execute env_refused (NewBackoffClient 0 [WithMaxRetry 3])
             sample_request start)).
Proof.
  apply (Execute_permanent_transport_error 0 env_refused
           (NewBackoffClient 0 [WithMaxRetry 3]) sample_request start
           "connection refused").
  reflexivity.
Defined.

(** An attempt that succeeds read a response the classifier lets
    through. *)
Lemma f_success_inv (env : Env) c r a w v a1 w1 :
  f env c r a w = (inl v, a1, w1) ->
  exists resp body,
    roundTrip env (Client c) (timeout (cfg c)) r (calls w) = inl resp /\
    ResponseRetryPolicy resp = None /\
    http.Body resp = http.BodyBytes body /\
    v = mkResponse (http.Status resp) (http.StatusCode resp)
          (http.Header resp) body /\
    calls w1 = S (calls w) /\
    response_hook_attempts (trace w1) =
      response_hook_attempts (trace w) ++ [a + 1].
Proof.
  unfold f, execute. rewrite Do_world.
  destruct (roundTrip env (Client c) (timeout (cfg c)) r (calls w))
    as [resp | err] eqn:Hrt.
  - destruct (ResponseRetryPolicy resp) as [perr |] eqn:Hpol.
    + cbn [errors_Is_RetryableError]. discriminate.
    + destruct (http.Body resp) as [body | msg] eqn:Hbody;
        cbn [io_ReadAll]; [| discriminate].
      intros Hf. inversion Hf; subst. clear Hf. exists resp, body.
      repeat split; try reflexivity; try assumption.
      trace_simpl. reflexivity.
  - destruct (ErrorRetryPolicy err);
      [cbn [errors_Is_RetryableError]; discriminate |].
    destruct (errors_Is_RetryableError err); discriminate.
Qed.

Lemma retry_loop_success_inv fuel env c r b a w v b' a' w' :
  retry_loop fuel env (f env c r) (notify c r) b a w =
    Some (inl v, b', a', w') ->
  exists resp body,
    roundTrip env (Client c) (timeout (cfg c)) r (calls w' - 1) = inl resp /\
    ResponseRetryPolicy resp = None /\
    http.Body resp = http.BodyBytes body /\
    v = mkResponse (http.Status resp) (http.StatusCode resp)
          (http.Header resp) body /\
    (0 < calls w')%nat /\
    exists earlier, response_hook_attempts (trace w') =
                    response_hook_attempts (trace w) ++ earlier ++ [a'].
Proof.
  revert b a w. induction fuel as [| fuel IH]; intros b a w Hrun;
    [discriminate |].
  pose proof (f_world env c r a w) as (_ & _ & _ & _ & Ha).
  loop_cases Hrun; cbn [fst snd] in *.
  - inversion Hrun; subst.
    apply f_success_inv in Hf.
    destruct Hf as (resp & body & Hrt & Hpol & Hbody & Hv & Hc & Hh).
    exists resp, body. rewrite Hc.
    replace (S (calls w) - 1)%nat with (calls w) by lia.
    repeat split; try assumption; try lia.
    exists []. exact Hh.
  - inversion Hrun.
  - inversion Hrun.
  - apply IH in Hrun.
    destruct Hrun as (resp & body & Hrt & Hpol & Hbody & Hv & Hc & earlier & Hh).
    exists resp, body. repeat split; try assumption.
    assert (Hearlier : exists mid,
               response_hook_attempts
                 (trace (advance next (emit (EvSleep next)
                    (notify c r err next a1
                       (if drew
                        then mkWorld (now w1) (calls w1) (S (draws w1))
                               (trace w1)
                        else w1))))) =
               response_hook_attempts (trace w) ++ mid).
    { assert (Hw1 : exists mid, response_hook_attempts (trace w1) =
                                response_hook_attempts (trace w) ++ mid).
      { revert Hf. unfold f, execute. rewrite Do_world.
        destruct (roundTrip env (Client c) (timeout (cfg c)) r (calls w))
          as [resp1 | err1].
        - destruct (ResponseRetryPolicy resp1).
          + cbn [errors_Is_RetryableError]. intros Hf; inversion Hf; subst.
            exists []. trace_simpl. reflexivity.
          + destruct (http.Body resp1); cbn [io_ReadAll];
              intros Hf; inversion Hf; subst.
            exists [a + 1]. trace_simpl. reflexivity.
        - destruct (ErrorRetryPolicy err1).
          + cbn [errors_Is_RetryableError]. intros Hf; inversion Hf; subst.
            exists []. trace_simpl. reflexivity.
          + destruct (errors_Is_RetryableError err1);
              intros Hf; inversion Hf; subst;
              exists []; trace_simpl; reflexivity. }
      destruct Hw1 as [mid Hmid]. exists mid. rewrite <- Hmid.
      destruct drew; trace_simpl; reflexivity. }
    destruct Hearlier as [mid Hmid]. rewrite Hmid in Hh.
    exists (mid ++ earlier). rewrite Hh, <- !app_assoc. reflexivity.
Qed.

(** X5: a response that [Execute] returns is the response of the last
    round trip of the run, with status, code and header copied and the
    body read in full, and it is one the classifier does not retry: the
    caller never receives a response with code 408, 425, 429, or 500 and
    above other than 501.  The after-response hook was called for it,
    last, with the final attempt number. *)
Theorem Execute_returns_final_response fuel env c r w v c' attempts w' :
  Execute fuel env c r w = Some (inl v, c', attempts, w') ->
  ~ code_retryable_code (StatusCode v) /\
  exists resp,
    roundTrip env (Client c) (timeout (cfg c)) r (calls w' - 1) = inl resp /\
    http.Body resp = http.BodyBytes (Body v) /\
    Status v = http.Status resp /\
    StatusCode v = http.StatusCode resp /\
    Header v = http.Header resp /\
    exists earlier, response_hook_attempts (trace w') =
                    response_hook_attempts (trace w) ++ earlier ++ [attempts].
Proof.
  unfold Execute, RetryNotifyWithData. intros Hrun.
  destruct (retry_loop _ _ _ _ _ _ _) as [[[[res1 b1] a1] w1] |] eqn:Hloop;
    [| discriminate].
  inversion Hrun; subst.
  apply retry_loop_success_inv in Hloop.
  destruct Hloop as (resp & body & Hrt & Hpol & Hbody & -> & _ & Hh).
  split.
  - cbn [StatusCode]. rewrite <- retryable_code. unfold retryable.
    rewrite Hpol. discriminate.
  - exists resp. cbn [Status StatusCode Header Body]. auto 10.
Qed.

Lemma Execute_returns_final_response_witness :
  match Execute 5 env_503_then_200 (NewBackoffClient 0 []) sample_request
          start with
  | Some (inl v, _, attempts, w') =>
      ~ code_retryable_code (StatusCode v) /\
      exists resp,
        roundTrip env_503_then_200 http.DefaultClient None sample_request
          (calls w' - 1) = inl resp /\
        http.Body resp = http.BodyBytes (Body v) /\
        Status v = http.Status resp /\
        StatusCode v = http.StatusCode resp /\
        Header v = http.Header resp /\
        exists earlier, response_hook_attempts (trace w') =
                        response_hook_attempts (trace start) ++ earlier ++
                        [attempts]
  | _ => False
  end.
Proof.
  destruct (Execute 5 env_503_then_200 (NewBackoffClient 0 []) sample_request
              start) as [[[[[v | err] c'] attempts] w'] |] eqn:Hrun.
  - exact (Execute_returns_final_response _ _ _ _ _ _ _ _ _ Hrun).
  - vm_compute in Hrun. discriminate Hrun.
  - vm_compute in Hrun. discriminate Hrun.
Defined.

(** ** The retry budget *)

(** A wait granted by [WithMaxRetries] is counted. *)
Lemma backOffTries_NextBackOff_inv clock random d maxTries numTries next b1 drew :
  cenkalti.NextBackOff clock random
    (cenkalti.backOffTries d maxTries numTries) = (next, b1, drew) ->
  next <> cenkalti.Stop ->
  (numTries < maxTries)%N /\
  exists d', b1 = cenkalti.backOffTries d' maxTries (numTries + 1).
Proof.
  cbn [cenkalti.NextBackOff].
  destruct (maxTries =? 0)%N; [intros Hn; inversion Hn; congruence |].
  destruct (maxTries <=? numTries)%N eqn:Hle;
    [intros Hn; inversion Hn; congruence |].
  apply N.leb_gt in Hle.
  destruct (cenkalti.NextBackOff clock random d) as [[next' d'] drew'].
  intros Hn _. inversion Hn; subst. split; [exact Hle |]. exists d'. reflexivity.
Qed.

Lemma retry_loop_attempts_bounded fuel env c r d maxTries numTries a w
    res b' a' w' :
  retry_loop fuel env (f env c r) (notify c r)
    (cenkalti.backOffTries d maxTries numTries) a w = Some (res, b', a', w') ->
  (numTries <= maxTries)%N ->
  (calls w' <= calls w + N.to_nat (maxTries - numTries) + 1)%nat.
Proof.
  revert d numTries a w. induction fuel as [| fuel IH];
    intros d numTries a w Hrun Hle; [discriminate |].
  pose proof (f_world env c r a w) as (Hc & _).
  loop_cases Hrun; cbn [fst snd] in *.
  - inversion Hrun; subst. lia.
  - inversion Hrun; subst. lia.
  - inversion Hrun; subst. destruct drew; cbn [calls]; lia.
  - apply Z.eqb_neq in Hstop.
    destruct (backOffTries_NextBackOff_inv _ _ _ _ _ _ _ _ Hnext Hstop)
      as (Hlt & d' & ->).
    apply IH in Hrun; [| lia].
    assert (Hcalls4 : calls (advance next (emit (EvSleep next)
                        (notify c r err next a1
                           (if drew
                            then mkWorld (now w1) (calls w1) (S (draws w1))
                                   (trace w1)
                            else w1)))) = S (calls w))
      by (rewrite <- Hc; destruct drew; reflexivity).
    rewrite Hcalls4 in Hrun. lia.
Qed.

(** X6: a client configured with a positive maxRetry never makes more
    than maxRetry + 1 round trips in one [Execute], whatever the endpoint
    answers and however long it takes. *)
Theorem Execute_attempts_bounded fuel env now0 opts r w res c' attempts w' :
  (0 < maxRetry (cfg (NewBackoffClient now0 opts)))%N ->
  Execute fuel env (NewBackoffClient now0 opts) r w =
    Some (res, c', attempts, w') ->
  (calls w' <=
   calls w + N.to_nat (maxRetry (cfg (NewBackoffClient now0 opts))) + 1)%nat /\
  attempts <= Z.of_N (maxRetry (cfg (NewBackoffClient now0 opts))) + 1.
Proof.
  intros Hpos Hrun.
  destruct (Execute_do_clients _ _ _ _ _ _ _ _ _ Hrun) as [_ Ha].
  revert Hrun. unfold Execute, RetryNotifyWithData.
  rewrite NewBackoffClient_strategy.
  replace (0 <? maxRetry (cfg (NewBackoffClient now0 opts)))%N with true
    by (symmetry; apply N.ltb_lt; exact Hpos).
  cbn [cenkalti.Reset].
  destruct (retry_loop _ _ _ _ _ _ _) as [[[[res1 b1] a1] w1] |] eqn:Hloop;
    [| discriminate].
  intros Hrun. inversion Hrun; subst.
  apply retry_loop_attempts_bounded in Hloop; [| lia].
  rewrite N.sub_0_r in Hloop. split; [exact Hloop | lia].
Qed.

Lemma Execute_attempts_bounded_witness :
  match Execute 9 env_deadline (NewBackoffClient 0 [WithMaxRetry 2])
          sample_request start with
  | Some (_, _, attempts, w') =>
      (calls w' <= calls start + N.to_nat 2 + 1)%nat /\
      attempts <= Z.of_N 2 + 1
  | None => False
  end.
Proof.
  destruct (Execute 9 env_deadline (NewBackoffClient 0 [WithMaxRetry 2])
              sample_request start) as [[[[res c'] attempts] w'] |] eqn:Hrun.
  - apply (Execute_attempts_bounded 9 env_deadline 0 [WithMaxRetry 2]
             sample_request start res c' attempts w'); [reflexivity | exact Hrun].
  - vm_compute in Hrun. discriminate Hrun.
Defined.

(** An attempt whose outcome is to be retried, be it a response or a
    transport error. *)
Lemma f_retryable_outcome (env : Env) c r a w E :
  retryable_error (roundTrip env (Client c) (timeout (cfg c)) r (calls w))
    = Some E ->
  f env c r a w =
    (inr E, a + 1,
     emit (EvErrorLogHook (ErrorLogHook (cfg c)) r E (a + 1)
             (latency env (calls w)))
       (after_execute env c r w)) /\
  errors_As_Permanent E = None /\
  errors_Is_RetryableError E = true.
Proof.
  unfold retryable_error.
  destruct (roundTrip env (Client c) (timeout (cfg c)) r (calls w))
    as [resp | err] eqn:Hrt.
  - destruct (ResponseRetryPolicy resp) as [perr |] eqn:Hpol; [| discriminate].
    intros HE. inversion HE; subst.
    split; [apply (f_retryable_response _ _ _ _ _ _ _ Hrt Hpol) |].
    split; [apply (ResponseRetryPolicy_not_permanent _ _ Hpol) | reflexivity].
  - destruct (ErrorRetryPolicy err) eqn:Hpol; [| discriminate].
    intros HE. inversion HE; subst.
    assert (Hplain : errors_As_Permanent err = None).
    { destruct err; try discriminate. reflexivity. }
    split; [| split; [exact Hplain | reflexivity]].
    unfold f.
    assert (He : execute env c r w =
                 (inr (RetryableError None err), after_execute env c r w)).
    { rewrite <- execute_world. unfold execute. rewrite Do_world, Hrt, Hpol.
      reflexivity. }
    rewrite He. cbn [errors_Is_RetryableError].
    unfold after_execute at 1. cbn [now].
    replace (now w + latency env (calls w) - now w)
      with (latency env (calls w)) by lia.
    reflexivity.
Qed.

Lemma retry_loop_retryable_outcomes (env : Env) (c : BackoffClient)
    (r : http.Request) (bound : Z) (n : nat) :
  (forall k, 0 <= latency env k <= bound) ->
  (forall k, is_Some (retryable_error
                        (roundTrip env (Client c) (timeout (cfg c)) r k))) ->
  forall fuel e maxTries numTries a w,
  (n < fuel)%nat ->
  default_settings e ->
  0 <= cenkalti.currentInterval e <= cenkalti.DefaultMaxInterval ->
  maxTries = (numTries + N.of_nat n)%N ->
  now w - cenkalti.startTime e + Z.of_nat n * (bound + longest_wait)
    <= cenkalti.DefaultMaxElapsedTime ->
  exists E b' w',
    retry_loop fuel env (f env c r) (notify c r)
      (cenkalti.backOffTries (cenkalti.Exponential e) maxTries numTries) a w =
    Some (inr E, b', a + Z.of_nat n + 1, w') /\
    calls w' = (calls w + n + 1)%nat /\
    retryable_error
      (roundTrip env (Client c) (timeout (cfg c)) r (calls w + n)) = Some E /\
    errors_Is_RetryableError E = true.
Proof.
  intros Hlat Hout.
  induction n as [| n IH]; intros fuel e maxTries numTries a w
    Hfuel Hset Hcur Hmax Hbudget.
  - destruct fuel as [| fuel]; [lia |].
    destruct (Hout (calls w)) as [E HE].
    destruct (f_retryable_outcome env c r a w E HE) as (Hf & Hperm & His).
    assert (Hlimit : (maxTries <= numTries)%N) by lia.
    rewrite (retry_loop_stop fuel env _ _ _ _ _ _ _ _ _ _ Hf Hperm
               (backOffTries_NextBackOff_at_limit _ _ _ _ _ Hlimit)).
    exists E. eexists. eexists. split; [| split; [| split]].
    + replace (a + Z.of_nat 0 + 1) with (a + 1) by lia. reflexivity.
    + simpl. lia.
    + rewrite Nat.add_0_r. exact HE.
    + exact His.
  - destruct fuel as [| fuel]; [lia |].
    destruct (Hout (calls w)) as [E HE].
    destruct (f_retryable_outcome env c r a w E HE) as (Hf & Hperm & His).
    set (w1 := emit _ (after_execute env c r w)) in Hf.
    assert (Hnow1 : now w1 = now w + latency env (calls w)) by reflexivity.
    pose proof (Hlat (calls w)) as Hl.
    assert (Hlw : 0 <= longest_wait) by (vm_compute; discriminate).
    pose proof (rand_Float64_range env (draws w1)) as [Hr0 Hr1].
    destruct (Exponential_NextBackOff_in_budget e (now w1)
                (rand_Float64 env (draws w1)) Hset Hcur Hr0 Hr1)
      as (next & Hnext & Hrange).
    { rewrite Nat2Z.inj_succ in Hbudget. rewrite Hnow1. nia. }
    destruct (incrementCurrentInterval_bounds e Hset Hcur)
      as (Hset' & Hstart' & Hcur').
    assert (HN : cenkalti.NextBackOff (now w1) (rand_Float64 env (draws w1))
                   (cenkalti.backOffTries (cenkalti.Exponential e)
                      maxTries numTries) =
                 (next,
                  cenkalti.backOffTries
                    (cenkalti.Exponential (cenkalti.incrementCurrentInterval e))
                    maxTries (numTries + 1), true)).
    { rewrite backOffTries_NextBackOff_below by lia.
      cbn [cenkalti.NextBackOff]. rewrite Hnext. reflexivity. }
    rewrite (retry_loop_again fuel env _ _ _ _ _ _ _ _ _ _ _ Hf Hperm HN)
      by (unfold cenkalti.Stop; lia).
    set (w4 := advance next _).
    assert (Hnow4 : now w4 = now w1 + next) by reflexivity.
    assert (Hcalls4 : calls w4 = S (calls w)) by reflexivity.
    destruct (IH fuel (cenkalti.incrementCurrentInterval e) maxTries
                (numTries + 1)%N (a + 1) w4)
      as (E' & b' & w' & Hrun & Hc' & HE' & His').
    + lia.
    + exact Hset'.
    + exact Hcur'.
    + lia.
    + rewrite Nat2Z.inj_succ in Hbudget.
      rewrite Hstart', Hnow4, Hnow1. nia.
    + exists E', b', w'. split; [| split; [| split]].
      * rewrite Hrun.
        replace (a + 1 + Z.of_nat n + 1) with (a + Z.of_nat (S n) + 1) by lia.
        reflexivity.
      * rewrite Hc', Hcalls4. lia.
      * rewrite Hcalls4 in HE'.
        replace (calls w + S n)%nat with (S (calls w) + n)%nat by lia.
        exact HE'.
      * exact His'.
Qed.

(** X7: a client with a positive maxRetry meets an endpoint whose every
    round trip ends in a retryable way (a response with a retryable code,
    the expiry of the deadline, or a mix of them).  [Execute] makes
    exactly maxRetry + 1 round trips and returns the error of the last
    one, which [errors.Is] recognises as a [RetryableError].  The round
    trips are taken to last at most [bound] each, with
    maxRetry * (bound + longest wait) within the scheduler's limit on the
    elapsed time, so that the count is what ends the run. *)
Theorem Execute_exhausts_retry_budget fuel env now0 opts r w (bound : Z) :
  let c := NewBackoffClient now0 opts in
  (0 < maxRetry (cfg c))%N ->
  (N.to_nat (maxRetry (cfg c)) < fuel)%nat ->
  (forall k, is_Some (retryable_error
                        (roundTrip env http.DefaultClient (timeout (cfg c)) r k))) ->
  (forall k, 0 <= latency env k <= bound) ->
  Z.of_N (maxRetry (cfg c)) * (bound + longest_wait)
    <= cenkalti.DefaultMaxElapsedTime ->
  exists E c' w',
    Execute fuel env c r w =
      Some (inr E, c', Z.of_N (maxRetry (cfg c)) + 1, w') /\
    calls w' = (calls w + N.to_nat (maxRetry (cfg c)) + 1)%nat /\
    retryable_error
      (roundTrip env http.DefaultClient (timeout (cfg c)) r
         (calls w + N.to_nat (maxRetry (cfg c)))) = Some E /\
    errors_Is_RetryableError E = true.
Proof.
  intros c Hpos Hfuel Hout Hlat Hbudget.
  destruct (retry_loop_retryable_outcomes env c r bound
              (N.to_nat (maxRetry (cfg c))) Hlat Hout fuel
              (cenkalti.Exponential_Reset (now w)
                 (cenkalti.NewExponentialBackOff now0))
              (maxRetry (cfg c)) 0%N 0 w)
    as (E & b' & w' & Hrun & Hcalls & HE & His).
  - exact Hfuel.
  - repeat split; reflexivity.
  - vm_compute. split; discriminate.
  - rewrite N2Nat.id. reflexivity.
  - change (cenkalti.startTime (cenkalti.Exponential_Reset (now w) _))
      with (now w).
    rewrite Z.sub_diag, N_nat_Z. lia.
  - exists E, (mkBackoffClient (Client c) (cfg c) b'), w'.
    split; [| split; [exact Hcalls | split; [exact HE | exact His]]].
    unfold Execute, RetryNotifyWithData.
    unfold c at 3. rewrite NewBackoffClient_strategy. fold c.
    replace (0 <? maxRetry (cfg c))%N with true
      by (symmetry; apply N.ltb_lt; exact Hpos).
    cbn [cenkalti.Reset]. rewrite Hrun, N_nat_Z. reflexivity.
Qed.

Lemma Execute_exhausts_retry_budget_witness :
  exists E c' w',
    Execute 6 env_deadline (NewBackoffClient 0 [WithMaxRetry 5]) sample_request
      start = Some (inr E, c', Z.of_N 5 + 1, w') /\
    calls w' = (calls start + N.to_nat 5 + 1)%nat /\
    retryable_error
      (roundTrip env_deadline http.DefaultClient None sample_request
         (calls start + N.to_nat 5)) = Some E /\
    errors_Is_RetryableError E = true.
Proof.
  apply (Execute_exhausts_retry_budget 6 env_deadline 0 [WithMaxRetry 5]
           sample_request start (2 * time.Second)).
  - reflexivity.
  - vm_compute. lia.
  - intros k. eexists. reflexivity.
  - intros k. vm_compute. split; discriminate.
  - vm_compute. discriminate.
Defined.

(** ** Termination *)

Lemma incrementCurrentInterval_grows (e : cenkalti.ExponentialBackOff) :
  default_settings e ->
  0 <= cenkalti.currentInterval e <= cenkalti.DefaultMaxInterval ->
  cenkalti.currentInterval e <=
  cenkalti.currentInterval (cenkalti.incrementCurrentInterval e).
Proof.
  intros (Hrf & Hm & Hmax & Hel) Hcur.
  unfold cenkalti.incrementCurrentInterval. simpl. rewrite Hm, Hmax.
  destruct (Qle_bool _ _); [lia |].
  assert (H0 : (0 <= inject_Z (cenkalti.currentInterval e))%Q)
    by (unfold Qle; simpl; lia).
  set (x := (inject_Z (cenkalti.currentInterval e) * cenkalti.DefaultMultiplier)%Q).
  assert (Hx : (inject_Z (cenkalti.currentInterval e) <= x)%Q)
    by (unfold x, cenkalti.DefaultMultiplier; nra).
  assert (Hx0 : (0 <= x)%Q) by nra.
  destruct (Duration_of_float_floor x Hx0) as [_ Hfu].
  assert (Hlt : (inject_Z (cenkalti.currentInterval e)
                 < inject_Z (cenkalti.Duration_of_float x + 1))%Q) by nra.
  rewrite <- Zlt_Qlt in Hlt. lia.
Qed.

(** The default exponential scheduler either stops or grants a wait of
    at least the shortest wait that fits in the elapsed-time limit. *)
Lemma Exponential_NextBackOff_cases (e : cenkalti.ExponentialBackOff)
    (clock : Z) (random : Q) :
  default_settings e ->
  cenkalti.DefaultInitialInterval <= cenkalti.currentInterval e
    <= cenkalti.DefaultMaxInterval ->
  (0 <= random)%Q -> (random < 1)%Q ->
  (cenkalti.Exponential_NextBackOff clock random e).2 =
    cenkalti.incrementCurrentInterval e /\
  ((cenkalti.Exponential_NextBackOff clock random e).1 = cenkalti.Stop \/
   (shortest_wait <= (cenkalti.Exponential_NextBackOff clock random e).1 /\
    clock - cenkalti.startTime e
      + (cenkalti.Exponential_NextBackOff clock random e).1
      <= cenkalti.DefaultMaxElapsedTime)).
Proof.
  intros (Hrf & Hm & Hmax & Hel) Hcur Hr0 Hr1.
  assert (Hinit : cenkalti.DefaultInitialInterval = 500000000) by reflexivity.
  pose proof (getRandomValueFromInterval_range random
                (cenkalti.currentInterval e) Hr0 Hr1 ltac:(lia)) as Hj.
  unfold cenkalti.Exponential_NextBackOff. rewrite Hrf, Hel.
  change cenkalti.DefaultRandomizationFactor with (1 # 2).
  set (next := cenkalti.getRandomValueFromInterval _ _ _) in *.
  change (negb (cenkalti.DefaultMaxElapsedTime =? 0)) with true.
  cbn [andb].
  destruct (clock - cenkalti.startTime e + next >? cenkalti.DefaultMaxElapsedTime)
    eqn:Hgt; cbn [fst snd].
  - split; [reflexivity | left; reflexivity].
  - split; [reflexivity | right].
    rewrite Z.gtb_ltb in Hgt. apply Z.ltb_ge in Hgt.
    split; [| exact Hgt].
    change shortest_wait with 250000000. lia.
Qed.

Lemma NextBackOff_client_scheduler b e clock random :
  client_scheduler b e ->
  default_settings e ->
  cenkalti.DefaultInitialInterval <= cenkalti.currentInterval e
    <= cenkalti.DefaultMaxInterval ->
  (0 <= random)%Q -> (random < 1)%Q ->
  (cenkalti.NextBackOff clock random b).1.1 = cenkalti.Stop \/
  (client_scheduler (cenkalti.NextBackOff clock random b).1.2
     (cenkalti.incrementCurrentInterval e) /\
   shortest_wait <= (cenkalti.NextBackOff clock random b).1.1 /\
   clock - cenkalti.startTime e + (cenkalti.NextBackOff clock random b).1.1
     <= cenkalti.DefaultMaxElapsedTime).
Proof.
  intros Hb Hset Hcur Hr0 Hr1.
  destruct (Exponential_NextBackOff_cases e clock random Hset Hcur Hr0 Hr1)
    as (He' & Hcases).
  destruct Hb as [e | e maxTries numTries]; cbn [cenkalti.NextBackOff].
  - destruct (cenkalti.Exponential_NextBackOff clock random e) as [next e'].
    cbn [fst snd] in *. subst e'.
    destruct Hcases as [-> | [Hlo Hhi]]; [left; reflexivity | right].
    split; [constructor | split; assumption].
  - destruct (maxTries =? 0)%N; [left; reflexivity |].
    destruct (maxTries <=? numTries)%N; [left; reflexivity |].
    destruct (cenkalti.Exponential_NextBackOff clock random e) as [next e'].
    cbn [fst snd] in *. subst e'.
    destruct Hcases as [-> | [Hlo Hhi]]; [left; reflexivity | right].
    split; [constructor | split; assumption].
Qed.

Lemma retry_loop_terminates (env : Env) c r :
  (forall k, 0 <= latency env k) ->
  forall n fuel b e a w,
  (n < fuel)%nat ->
  client_scheduler b e ->
  default_settings e ->
  cenkalti.DefaultInitialInterval <= cenkalti.currentInterval e
    <= cenkalti.DefaultMaxInterval ->
  cenkalti.DefaultMaxElapsedTime - (now w - cenkalti.startTime e)
    < Z.of_nat n * shortest_wait ->
  is_Some (retry_loop fuel env (f env c r) (notify c r) b a w).
Proof.
  intros Hlat n. induction n as [| n IH];
    intros fuel b e a w Hfuel Hb Hset Hcur Hleft;
    (destruct fuel as [| fuel]; [lia |]);
    cbn [retry_loop];
    pose proof (f_world env c r a w) as (_ & _ & Hnow & _);
    destruct (f env c r a w) as [[res a1] w1]; cbn [snd] in Hnow;
    (destruct res as [v | err]; [eexists; reflexivity |]);
    (destruct (errors_As_Permanent err); [eexists; reflexivity |]);
    pose proof (rand_Float64_range env (draws w1)) as [Hr0 Hr1];
    pose proof (NextBackOff_client_scheduler b e (now w1)
                  (rand_Float64 env (draws w1)) Hb Hset Hcur Hr0 Hr1) as Hnext;
    destruct (cenkalti.NextBackOff (now w1) (rand_Float64 env (draws w1)) b)
      as [[next b1] drew]; cbn [fst snd] in Hnext;
    pose proof (Hlat (calls w)) as Hl;
    assert (Hs : shortest_wait = 250000000) by reflexivity;
    (destruct Hnext as [-> | (Hb1 & Hlo & Hhi)];
       [rewrite Z.eqb_refl; eexists; reflexivity |]);
    (replace (next =? cenkalti.Stop) with false
       by (symmetry; apply Z.eqb_neq; unfold cenkalti.Stop; lia)).
  - exfalso. lia.
  - assert (Hbounds : 0 <= cenkalti.currentInterval e
                        <= cenkalti.DefaultMaxInterval)
      by (change cenkalti.DefaultInitialInterval with 500000000 in Hcur; lia).
    destruct (incrementCurrentInterval_bounds e Hset Hbounds)
      as (Hset' & Hstart' & Hcur').
    pose proof (incrementCurrentInterval_grows e Hset Hbounds) as Hgrow.
    apply (IH fuel b1 (cenkalti.incrementCurrentInterval e)).
    + lia.
    + exact Hb1.
    + exact Hset'.
    + lia.
    + rewrite Hstart'.
      assert (Hnow4 : now (advance next (emit (EvSleep next)
                        (notify c r err next a1
                           (if drew
                            then mkWorld (now w1) (calls w1) (S (draws w1))
                                   (trace w1)
                            else w1)))) = now w1 + next)
        by (destruct drew; reflexivity).
      rewrite Hnow4, Hnow. rewrite Nat2Z.inj_succ in Hleft. lia.
Qed.

Lemma retry_loop_calls_le_fuel fuel env c r b a w res b' a' w' :
  retry_loop fuel env (f env c r) (notify c r) b a w = Some (res, b', a', w') ->
  (calls w' <= calls w + fuel)%nat.
Proof.
  revert b a w. induction fuel as [| fuel IH]; intros b a w Hrun;
    [discriminate |].
  pose proof (f_world env c r a w) as (Hc & _).
  loop_cases Hrun; cbn [fst snd] in *.
  - inversion Hrun; subst. lia.
  - inversion Hrun; subst. lia.
  - inversion Hrun; subst. destruct drew; cbn [calls]; lia.
  - apply IH in Hrun.
    assert (Hcalls4 : calls (advance next (emit (EvSleep next)
                        (notify c r err next a1
                           (if drew
                            then mkWorld (now w1) (calls w1) (S (draws w1))
                                   (trace w1)
                            else w1)))) = S (calls w))
      by (rewrite <- Hc; destruct drew; reflexivity).
    rewrite Hcalls4 in Hrun. lia.
Qed.

(** X8: [Execute] always returns.  For every client [NewBackoffClient]
    builds, maxRetry 0 included, and every endpoint (round trips take
    no negative time), a run ends after at most 3602 attempts: each
    wait is at least 250ms and the scheduler stops once 15 minutes have
    passed since the reset. *)
Theorem Execute_terminates fuel env now0 opts r w :
  (forall k, 0 <= latency env k) ->
  (enough_fuel <= fuel)%nat ->
  exists res c' attempts w',
    Execute fuel env (NewBackoffClient now0 opts) r w =
      Some (res, c', attempts, w') /\
    (calls w' <= calls w + enough_fuel)%nat.
Proof.
  intros Hlat Hfuel.
  set (c := NewBackoffClient now0 opts).
  set (e := cenkalti.Exponential_Reset (now w)
              (cenkalti.NewExponentialBackOff now0)).
  assert (Hb : client_scheduler (cenkalti.Reset (now w) (backOffStrategy c)) e).
  { unfold c. rewrite NewBackoffClient_strategy.
    destruct (0 <? _)%N; cbn [cenkalti.Reset]; constructor. }
  destruct (retry_loop_terminates env c r Hlat 3601 enough_fuel _ e 0 w
              ltac:(unfold enough_fuel; lia) Hb) as [[[[res b'] a'] w'] Hrun].
  - repeat split; reflexivity.
  - vm_compute. split; discriminate.
  - change (cenkalti.startTime e) with (now w). rewrite Z.sub_diag.
    vm_compute. reflexivity.
  - exists res, (mkBackoffClient (Client c) (cfg c) b'), a', w'.
    split.
    + unfold Execute, RetryNotifyWithData.
      rewrite (retry_loop_fuel_mono enough_fuel fuel _ _ _ _ _ _ _ Hfuel Hrun).
      reflexivity.
    + apply retry_loop_calls_le_fuel in Hrun. exact Hrun.
Qed.

Lemma Execute_terminates_witness :
  exists res c' attempts w',
    Execute enough_fuel env_refused (NewBackoffClient 0 []) sample_request start =
      Some (res, c', attempts, w') /\
    (calls w' <= calls start + enough_fuel)%nat.
Proof.
  apply (Execute_terminates enough_fuel env_refused 0 [] sample_request start).
  - intros k. vm_compute. discriminate.
  - lia.
Defined.

(** ** What the configuration is used for *)

Lemma retry_loop_ext {T L : Type} fuel env
    (op1 op2 : L -> World -> (T + error) * L * World)
    (nt1 nt2 : error -> time.Duration -> L -> World -> World) b l w :
  (forall l w, op1 l w = op2 l w) ->
  (forall err d l w, nt1 err d l w = nt2 err d l w) ->
  retry_loop fuel env op1 nt1 b l w = retry_loop fuel env op2 nt2 b l w.
Proof.
  intros Hop Hnt. revert b l w.
  induction fuel as [| fuel IH]; intros b l w; [reflexivity |].
  cbn [retry_loop]. rewrite Hop.
  destruct (op2 l w) as [[res l1] w1].
  destruct res as [v | err]; [reflexivity |].
  destruct (errors_As_Permanent err); [reflexivity |].
  destruct (cenkalti.NextBackOff _ _ b) as [[next b1] drew].
  destruct (next =? cenkalti.Stop); [reflexivity |].
  rewrite Hnt. apply IH.
Qed.

Lemma f_ext env c1 c2 r a w :
  Client c1 = Client c2 ->
  timeout (cfg c1) = timeout (cfg c2) ->
  ResponseLogHook (cfg c1) = ResponseLogHook (cfg c2) ->
  ErrorLogHook (cfg c1) = ErrorLogHook (cfg c2) ->
  f env c1 r a w = f env c2 r a w.
Proof.
  intros Hcl Ht Hresp Herr. unfold f, execute.
  rewrite Hcl, Ht, Hresp, Herr. reflexivity.
Qed.

(** X9: of the configuration, [Execute] uses the retry limit, the
    per-attempt timeout and the three hooks, and nothing else.  Two
    clients built from option lists that agree on these five settings
    behave alike in every environment, whatever service name, intervals,
    multiplier or client the lists give, and whenever the clients were
    built. *)
Theorem Execute_uses_five_settings fuel env now1 now2 opts1 opts2 r w :
  let c1 := NewBackoffClient now1 opts1 in
  let c2 := NewBackoffClient now2 opts2 in
  maxRetry (cfg c1) = maxRetry (cfg c2) ->
  timeout (cfg c1) = timeout (cfg c2) ->
  RequestLogHook (cfg c1) = RequestLogHook (cfg c2) ->
  ResponseLogHook (cfg c1) = ResponseLogHook (cfg c2) ->
  ErrorLogHook (cfg c1) = ErrorLogHook (cfg c2) ->
  observable (Execute fuel env c1 r w) = observable (Execute fuel env c2 r w).
Proof.
  intros c1 c2 Hmax Ht Hreq Hresp Herr.
  assert (Hreset : cenkalti.Reset (now w) (backOffStrategy c1) =
                   cenkalti.Reset (now w) (backOffStrategy c2)).
  { unfold c1, c2. rewrite !NewBackoffClient_strategy. fold c1 c2.
    rewrite Hmax. destruct (0 <? maxRetry (cfg c2))%N; reflexivity. }
  unfold Execute, RetryNotifyWithData. rewrite Hreset.
  rewrite (retry_loop_ext fuel env (f env c1 r) (f env c2 r)
             (notify c1 r) (notify c2 r)).
  - destruct (retry_loop _ _ _ _ _ _ _) as [[[[res b'] a'] w'] |]; reflexivity.
  - intros a w0. apply f_ext; auto.
  - intros err d a w0. unfold notify. rewrite Hreq. reflexivity.
Qed.

Lemma Execute_uses_five_settings_witness :
  observable
    (Execute 5 env_503_then_200
       (NewBackoffClient 7
          [WithService "billing"; WithInitialInterval (1 * time.Second);
           WithMultiplier 2; WithMaxInterval (10 * time.Second);
           WithClient (http.NewClient 7)])
       sample_request start) =
  observable
    (Execute 5 env_503_then_200 (NewBackoffClient 0 []) sample_request start).
Proof.
  apply (Execute_uses_five_settings 5 env_503_then_200 7 0
           [WithService "billing"; WithInitialInterval (1 * time.Second);
            WithMultiplier 2; WithMaxInterval (10 * time.Second);
            WithClient (http.NewClient 7)] [] sample_request start);
    reflexivity.
Defined.

(** ** The schedule *)

Lemma schedule_invariant (e : cenkalti.ExponentialBackOff) (k : nat) :
  default_settings e ->
  cenkalti.DefaultInitialInterval <= cenkalti.currentInterval e
    <= cenkalti.DefaultMaxInterval ->
  let e' := Nat.iter k cenkalti.incrementCurrentInterval e in
  default_settings e' /\
  cenkalti.DefaultInitialInterval <= cenkalti.currentInterval e'
    <= cenkalti.DefaultMaxInterval.
Proof.
  intros Hset Hcur. cbv zeta.
  induction k as [| k IH]; [auto |]. rewrite Nat.iter_succ.
  destruct IH as [Hset' Hcur'].
  assert (Hb : 0 <= cenkalti.currentInterval
                      (Nat.iter k cenkalti.incrementCurrentInterval e)
               <= cenkalti.DefaultMaxInterval)
    by (change cenkalti.DefaultInitialInterval with 500000000 in Hcur'; lia).
  destruct (incrementCurrentInterval_bounds _ Hset' Hb) as (Hs & _ & Hc).
  pose proof (incrementCurrentInterval_grows _ Hset' Hb).
  split; [exact Hs | lia].
Qed.

Lemma incrementCurrentInterval_at_ceiling (e : cenkalti.ExponentialBackOff) :
  default_settings e ->
  cenkalti.currentInterval e = cenkalti.DefaultMaxInterval ->
  cenkalti.currentInterval (cenkalti.incrementCurrentInterval e) =
  cenkalti.DefaultMaxInterval.
Proof.
  intros (Hrf & Hm & Hmax & Hel) Hcur.
  unfold cenkalti.incrementCurrentInterval. simpl. rewrite Hm, Hmax, Hcur.
  reflexivity.
Qed.

(** X10: the waits a client schedules when jitter is ignored depend on
    no option: they start at 500ms, never decrease, never exceed 60s,
    and are 60s from the thirteenth retry on. *)
Theorem scheduled_wait_shape (now0 : Z) (opts : list Option) (n : nat) :
  let c := NewBackoffClient now0 opts in
  scheduled_wait c 1 = 500 * time.Millisecond /\
  500 * time.Millisecond <= scheduled_wait c n <= 60 * time.Second /\
  scheduled_wait c n <= scheduled_wait c (S n) /\
  ((13 <= n)%nat -> scheduled_wait c n = 60 * time.Second).
Proof.
  intros c. unfold scheduled_wait, c. rewrite fold_options_maxRetry_only.
  set (e0 := cenkalti.Exponential_Reset 0 (cenkalti.NewExponentialBackOff now0)).
  assert (Hset0 : default_settings e0) by (repeat split; reflexivity).
  assert (Hcur0 : cenkalti.DefaultInitialInterval <= cenkalti.currentInterval e0
                  <= cenkalti.DefaultMaxInterval)
    by (vm_compute; split; discriminate).
  split; [reflexivity |]. split; [| split].
  - exact (proj2 (schedule_invariant e0 (n - 1) Hset0 Hcur0)).
  - destruct n as [| n]; [cbn; lia |].
    replace (S (S n) - 1)%nat with (S (S n - 1)) by lia.
    rewrite Nat.iter_succ.
    destruct (schedule_invariant e0 (S n - 1) Hset0 Hcur0) as [Hs Hc].
    apply incrementCurrentInterval_grows; [exact Hs |].
    change cenkalti.DefaultInitialInterval with 500000000 in Hc. lia.
  - intros Hn.
    replace (n - 1)%nat with ((n - 13) + 12)%nat by lia.
    generalize (n - 13)%nat. intros k. induction k as [| k IH].
    + vm_compute. reflexivity.
    + cbn [Nat.add]. rewrite Nat.iter_succ.
      apply incrementCurrentInterval_at_ceiling; [| exact IH].
      exact (proj1 (schedule_invariant e0 (k + 12) Hset0 Hcur0)).
Qed.

(** ** Builders a caller can hold *)

Section builder_invariant.
Context `{GoPackages}.

Lemma headers_store_inv k v (rb rb' : Builder.RequestBuilder) :
  Builder.headers_store k v rb = Returns rb' ->
  Builder.form rb' = Builder.form rb /\
  Builder.query rb' = Builder.query rb /\
  Builder.method rb' = Builder.method rb /\
  Builder.url rb' = Builder.url rb /\
  Builder.body rb' = Builder.body rb /\
  is_Some (Builder.headers rb').
Proof.
  unfold Builder.headers_store.
  destruct (Builder.headers rb) as [h |]; [| discriminate].
  intros Hr. inversion Hr; subst. cbn. repeat split; eauto.
Qed.

Lemma headers_store_returns k v (rb : Builder.RequestBuilder) :
  is_Some (Builder.headers rb) ->
  exists rb', Builder.headers_store k v rb = Returns rb'.
Proof.
  intros [h Hh]. unfold Builder.headers_store. rewrite Hh. eauto.
Qed.

Lemma Headers_fold_inv (l : list (string * string))
    (o : Outcome Builder.RequestBuilder) (rb' : Builder.RequestBuilder) :
  foldl (fun o kv => o >>= Builder.headers_store kv.1 kv.2) o l = Returns rb' ->
  exists rb, o = Returns rb /\
    Builder.form rb' = Builder.form rb /\
    Builder.query rb' = Builder.query rb /\
    Builder.method rb' = Builder.method rb /\
    Builder.url rb' = Builder.url rb /\
    Builder.body rb' = Builder.body rb /\
    (is_Some (Builder.headers rb) -> is_Some (Builder.headers rb')).
Proof.
  revert o. induction l as [| kv l IH]; intros o; cbn [foldl].
  - intros ->. exists rb'. repeat split; auto.
  - intros Hfold. apply IH in Hfold.
    destruct Hfold as (rb1 & Hstep & Hf & Hq & Hm & Hu & Hb & Hh).
    destruct o as [rb |]; [| discriminate]. cbn [bind] in Hstep.
    apply headers_store_inv in Hstep.
    destruct Hstep as (Hf1 & Hq1 & Hm1 & Hu1 & Hb1 & Hh1).
    exists rb. repeat split; try congruence. auto.
Qed.

Lemma Headers_fold_returns (l : list (string * string))
    (rb : Builder.RequestBuilder) :
  is_Some (Builder.headers rb) ->
  exists rb',
    foldl (fun o kv => o >>= Builder.headers_store kv.1 kv.2) (Returns rb) l
    = Returns rb'.
Proof.
  revert rb. induction l as [| kv l IH]; intros rb Hh; cbn [foldl bind].
  - eauto.
  - destruct (headers_store_returns kv.1 kv.2 rb Hh) as [rb1 Hrb1].
    rewrite Hrb1. apply IH.
    apply headers_store_inv in Hrb1. tauto.
Qed.

Lemma Build_nil_form ctx (rb : Builder.RequestBuilder) :
  Builder.form rb = None ->
  exists res, Builder.Build ctx rb = Returns (rb, res) /\
    forall r, res = inl r ->
      http.Method r =
        (if String.eqb (Builder.method rb) "" then "GET" else Builder.method rb) /\
      http.ReqBody r = Builder.body rb.
Proof.
  intros Hform. unfold Builder.Build. rewrite Hform. cbn [Values_len].
  destruct (url_Parse (Builder.url rb)) as [u | err].
  - cbn [Nat.ltb Nat.leb bind].
    unfold Builder.http_NewRequestWithContext.
    destruct (negb _); [eexists; split; [reflexivity | discriminate] |].
    destruct ctx; [| eexists; split; [reflexivity | discriminate]].
    destruct (url_Parse _) as [u' | err'];
      [| eexists; split; [reflexivity | discriminate]].
    eexists. split; [reflexivity |].
    intros r Hr. inversion Hr; subst. split; reflexivity.
  - eexists. split; [reflexivity | discriminate].
Qed.

(** The invariant of the builders a caller can hold. *)
Lemma built_invariant (rb : Builder.RequestBuilder) :
  built rb ->
  Builder.form rb = None /\
  is_Some (Builder.headers rb) /\
  is_Some (Builder.query rb).
Proof.
  induction 1 as
    [ | m rb Hb IH | u rb Hb IH | k v rb rb' Hb IH Hcall | q rb Hb IH
    | k v rb rb' Hb IH Hcall | hs rb rb' Hb IH Hcall | ct rb rb' Hb IH Hcall
    | ua rb rb' Hb IH Hcall | b rb Hb IH | b rb Hb IH | b rb Hb IH
    | data rb Hb IH | fm rb rb' Hb IH Hcall | ctx rb rb' res Hb IH Hcall ];
    try destruct IH as (Hform & Hhead & Hquery).
  - cbn. repeat split; eauto.
  - cbn. auto.
  - cbn. auto.
  - unfold Builder.QueryParam in Hcall.
    destruct Hquery as [m Hm]. rewrite Hm in Hcall. cbn in Hcall.
    inversion Hcall; subst. cbn. repeat split; eauto.
  - unfold Builder.Query.
    destruct (Values_len q =? 0)%nat eqn:Hq; [auto |].
    destruct (Values_len (Builder.query rb) =? 0)%nat.
    + cbn. repeat split; auto.
      destruct q as [m |]; [eauto | discriminate].
    + cbn. repeat split; eauto.
  - apply headers_store_inv in Hcall. intuition congruence.
  - unfold Builder.Headers in Hcall. apply Headers_fold_inv in Hcall.
    destruct Hcall as (rb0 & Heq & Hf & Hq & _ & _ & _ & Hh).
    inversion Heq; subst rb0. repeat split; [congruence | auto | congruence].
  - apply headers_store_inv in Hcall. intuition congruence.
  - apply headers_store_inv in Hcall. intuition congruence.
  - cbn. auto.
  - cbn. auto.
  - cbn. auto.
  - unfold Builder.BodyJSON. destruct (json_Marshal data); cbn; auto.
  - destruct (decide (fm = ∅)) as [-> | Hne].
    + unfold Builder.PostForm in Hcall. rewrite map_to_list_empty in Hcall.
      inversion Hcall; subst. auto.
    + rewrite (PostForm_nil_form fm rb Hform Hne) in Hcall. discriminate.
  - destruct (Build_nil_form ctx rb Hform) as (res' & Hbuild & _).
    rewrite Hbuild in Hcall. inversion Hcall; subst. auto.
Qed.

(** X11: on every builder a caller can obtain from [NewRequestBuilder]
    through the package's methods, the form map is nil.  Hence the
    setters of headers and query parameters never panic; [PostForm]
    returns the builder untouched for an empty map and panics for any
    other; and [Build] never panics, leaves the builder as it was, and
    never takes its form branch: the request it returns has the
    builder's method (GET when none was set) and the builder's body. *)
Theorem built_builder_behaviour (rb : Builder.RequestBuilder) :
  built rb ->
  Builder.form rb = None /\
  (forall k v, exists rb', Builder.Header k v rb = Returns rb') /\
  (forall hs, exists rb', Builder.Headers hs rb = Returns rb') /\
  (forall k v, exists rb', Builder.QueryParam k v rb = Returns rb') /\
  (forall fm,
     Builder.PostForm fm rb =
     if decide (fm = ∅) then Returns rb
     else Panics "assignment to entry in nil map") /\
  (forall ctx, exists res,
     Builder.Build ctx rb = Returns (rb, res) /\
     forall r, res = inl r ->
       http.Method r =
         (if String.eqb (Builder.method rb) "" then "GET"
          else Builder.method rb) /\
       http.ReqBody r = Builder.body rb).
Proof.
  intros Hb. destruct (built_invariant rb Hb) as (Hform & Hhead & Hquery).
  split; [exact Hform |]. split; [| split; [| split; [| split]]].
  - intros k v. apply headers_store_returns. exact Hhead.
  - intros hs. apply Headers_fold_returns. exact Hhead.
  - intros k v. destruct Hquery as [m Hm].
    unfold Builder.QueryParam. rewrite Hm. cbn. eauto.
  - intros fm. destruct (decide (fm = ∅)) as [-> | Hne].
    + unfold Builder.PostForm. rewrite map_to_list_empty. reflexivity.
    + apply PostForm_nil_form; assumption.
  - intros ctx. apply Build_nil_form. exact Hform.
Qed.

End builder_invariant.

Lemma built_builder_behaviour_witness :
  let rb :=
    Builder.BodyString "payload"
      (Builder.URL "http://example.test/items"
         (Builder.Method "PUT" Builder.NewRequestBuilder)) in
  Builder.form rb = None /\
  (forall k v, exists rb', @Builder.Header k v rb = Returns rb') /\
  (forall hs, exists rb', @Builder.Headers hs rb = Returns rb') /\
  (forall k v, exists rb', @Builder.QueryParam k v rb = Returns rb') /\
  (forall fm,
     Builder.PostForm fm rb =
     if decide (fm = ∅) then Returns rb
     else Panics "assignment to entry in nil map") /\
  (forall ctx, exists res,
     @Builder.Build sample_packages ctx rb = Returns (rb, res) /\
     forall r, res = inl r ->
       http.Method r =
         (if String.eqb (Builder.method rb) "" then "GET"
          else Builder.method rb) /\
       http.ReqBody r = Builder.body rb).
Proof.
  apply (@built_builder_behaviour sample_packages).
  apply built_BodyString, built_URL, built_Method, built_NewRequestBuilder.
Defined.

(** ** Query parameters and headers *)

Lemma foldl_insert_lookup {V : Type} (l : list (string * V))
    (m0 : gmap string V) (k : string) :
  NoDup l.*1 ->
  foldl (fun m kv => <[kv.1 := kv.2]> m) m0 l !! k =
  match (list_to_map l : gmap string V) !! k with
  | Some v => Some v
  | None => m0 !! k
  end.
Proof.
  revert m0. induction l as [| [k' v'] l IH]; intros m0 Hnd; cbn [foldl].
  - change (list_to_map [] : gmap string V) with (∅ : gmap string V).
    rewrite lookup_empty. reflexivity.
  - rewrite fmap_cons in Hnd. apply NoDup_cons in Hnd.
    destruct Hnd as [Hnotin Hnd].
    rewrite (IH _ Hnd). rewrite list_to_map_cons. cbn [fst snd].
    destruct (decide (k = k')) as [-> | Hne].
    + rewrite (not_elem_of_list_to_map_1 l k' Hnotin).
      rewrite !lookup_insert_eq. reflexivity.
    + rewrite !lookup_insert_ne by congruence. reflexivity.
Qed.

(** X12: [Query] merges its argument into the builder's query values
    key by key: a key the argument carries gets the argument's values in
    place of the builder's (they are not appended), every other key
    keeps its values.  An empty or nil argument changes nothing. *)
Theorem Query_replaces_values (q : Values) (rb : Builder.RequestBuilder)
    (k : string) :
  default ∅ (Builder.query (Builder.Query q rb)) !! k =
    match default ∅ q !! k with
    | Some vs => Some vs
    | None => default ∅ (Builder.query rb) !! k
    end /\
  (Values_len q = 0%nat -> Builder.Query q rb = rb) /\
  Builder.method (Builder.Query q rb) = Builder.method rb /\
  Builder.url (Builder.Query q rb) = Builder.url rb /\
  Builder.headers (Builder.Query q rb) = Builder.headers rb /\
  Builder.form (Builder.Query q rb) = Builder.form rb /\
  Builder.body (Builder.Query q rb) = Builder.body rb.
Proof.
  unfold Builder.Query.
  destruct (Values_len q =? 0)%nat eqn:Hq.
  - apply Nat.eqb_eq in Hq. split; [| auto 10].
    destruct q as [m |]; cbn in *.
    + apply map_size_empty_iff in Hq. subst m. rewrite lookup_empty. reflexivity.
    + rewrite lookup_empty. reflexivity.
  - apply Nat.eqb_neq in Hq. split; [| split; [intros; contradiction |]].
    + destruct (Values_len (Builder.query rb) =? 0)%nat eqn:Hold.
      * apply Nat.eqb_eq in Hold. cbn [Builder.set_query Builder.query].
        assert (Hempty : default ∅ (Builder.query rb) = ∅).
        { destruct (Builder.query rb) as [m |]; cbn in *;
            [apply map_size_empty_iff in Hold; exact Hold | reflexivity]. }
        rewrite Hempty, lookup_empty.
        destruct (default ∅ q !! k); reflexivity.
      * cbn [Builder.set_query Builder.query default]. unfold id.
        rewrite foldl_insert_lookup by apply NoDup_fst_map_to_list.
        rewrite list_to_map_to_list. reflexivity.
    + destruct (Values_len (Builder.query rb) =? 0)%nat; cbn; auto.
Qed.

Section build_headers.
Context `{GoPackages}.

Lemma set_request_headers_lookup (l : list (string * string))
    (h0 : gmap string (list string)) (K : string) (vs : list string) :
  foldl (fun h kv => <[http_CanonicalHeaderKey kv.1 := [kv.2]]> h) h0 l !! K
    = Some vs ->
  h0 !! K = Some vs \/
  exists k v, (k, v) ∈ l /\ http_CanonicalHeaderKey k = K /\ vs = [v].
Proof.
  induction l as [| [k v] l IH] using rev_ind; cbn [foldl]; [auto |].
  rewrite foldl_snoc. cbn [fst snd].
  destruct (decide (http_CanonicalHeaderKey k = K)) as [<- | Hne].
  - rewrite lookup_insert_eq. intros Hv. inversion Hv; subst. right.
    exists k, v. split; [| auto]. apply elem_of_app. right. constructor.
  - rewrite lookup_insert_ne by exact Hne. intros Hv.
    destruct (IH Hv) as [? | (k1 & v1 & Hin & Hk & Hvs)]; [auto |].
    right. exists k1, v1. split; [| auto]. apply elem_of_app. auto.
Qed.

Lemma set_request_headers_unique (l : list (string * string))
    (h0 : gmap string (list string)) (k v : string) :
  (k, v) ∈ l ->
  (forall k' v', (k', v') ∈ l ->
     http_CanonicalHeaderKey k' = http_CanonicalHeaderKey k ->
     k' = k /\ v' = v) ->
  foldl (fun h kv => <[http_CanonicalHeaderKey kv.1 := [kv.2]]> h) h0 l
    !! http_CanonicalHeaderKey k = Some [v].
Proof.
  induction l as [| [k1 v1] l IH] using rev_ind; [intros Hin; inversion Hin |].
  intros Hin Huniq. rewrite foldl_snoc. cbn [fst snd].
  destruct (decide (http_CanonicalHeaderKey k1 = http_CanonicalHeaderKey k))
    as [Heq | Hne].
  - destruct (Huniq k1 v1) as [-> ->];
      [apply elem_of_app; right; constructor | exact Heq |].
    apply lookup_insert_eq.
  - rewrite lookup_insert_ne by exact Hne.
    apply IH.
    + apply elem_of_app in Hin. destruct Hin as [Hin | Hin]; [exact Hin |].
      apply list_elem_of_singleton in Hin. inversion Hin; subst. contradiction.
    + intros k' v' Hin'. apply Huniq. apply elem_of_app. auto.
Qed.

(** X13: the header of the request [Build] returns holds nothing but
    the builder's headers, each under the canonical form of its key with
    its value as the only value; a builder header whose key shares its
    canonical form with no other key of the builder is in the request
    under that form. *)
Theorem Build_sets_headers ctx (rb rb' : Builder.RequestBuilder)
    (r : http.Request) :
  Builder.Build ctx rb = Returns (rb', inl r) ->
  let hs := default ∅ (Builder.headers rb') in
  (forall K vs, http.ReqHeader r !! K = Some vs ->
     exists k v, hs !! k = Some v /\ http_CanonicalHeaderKey k = K /\ vs = [v]) /\
  (forall k v, hs !! k = Some v ->
     (forall k', is_Some (hs !! k') ->
        http_CanonicalHeaderKey k' = http_CanonicalHeaderKey k -> k' = k) ->
     http.ReqHeader r !! http_CanonicalHeaderKey k = Some [v]).
Proof.
  intros Hbuild hs.
  destruct (Build_request _ _ _ _ Hbuild) as (u & r0 & _ & Hnew & ->).
  assert (Hr0 : http.ReqHeader r0 = ∅).
  { revert Hnew. unfold Builder.http_NewRequestWithContext.
    destruct (negb _); [discriminate |].
    destruct ctx; [| discriminate].
    destruct (url_Parse _); [| discriminate].
    intros Hr; inversion Hr; reflexivity. }
  unfold Builder.set_request_headers. cbn [http.ReqHeader]. rewrite Hr0.
  fold hs. split.
  - intros K vs Hlook.
    apply set_request_headers_lookup in Hlook.
    destruct Hlook as [Hlook | (k & v & Hin & Hk & Hvs)].
    + rewrite lookup_empty in Hlook. discriminate.
    + exists k, v. split; [| auto]. apply elem_of_map_to_list. exact Hin.
  - intros k v Hk Huniq.
    apply set_request_headers_unique.
    + apply elem_of_map_to_list. exact Hk.
    + intros k' v' Hin Hcan. apply elem_of_map_to_list in Hin.
      assert (k' = k) by (apply Huniq; [eauto | exact Hcan]).
      subst k'. split; [reflexivity | congruence].
Qed.

End build_headers.

Lemma Build_sets_headers_witness :
  match @Builder.Build sample_packages (Some 0%nat) sample_builder with
  | Returns (rb', inl r) =>
      (forall K vs, http.ReqHeader r !! K = Some vs ->
         exists k v, default ∅ (Builder.headers rb') !! k = Some v /\
                     @http_CanonicalHeaderKey sample_packages k = K /\
                     vs = [v]) /\
      (forall k v, default ∅ (Builder.headers rb') !! k = Some v ->
         (forall k', is_Some (default ∅ (Builder.headers rb') !! k') ->
            @http_CanonicalHeaderKey sample_packages k' =
            @http_CanonicalHeaderKey sample_packages k -> k' = k) ->
         http.ReqHeader r !! @http_CanonicalHeaderKey sample_packages k
           = Some [v])
  | _ => False
  end.
Proof.
  destruct (@Builder.Build sample_packages (Some 0%nat) sample_builder)
    as [[rb' [r | err]] | msg] eqn:Hbuild.
  - exact (@Build_sets_headers sample_packages (Some 0%nat) sample_builder
             rb' r Hbuild).
  - vm_compute in Hbuild. discriminate Hbuild.
  - vm_compute in Hbuild. discriminate Hbuild.
Defined.

(** ** The request methods of the client *)

Section request_methods.
Context `{GoPackages}.

(** What the tail shared by the methods does with a builder a caller
    can hold: the headers are stored, [Build] returns, and the request,
    if there is one, carries the builder's method and body to
    [Execute]. *)
Lemma send_built fuel env c w ctx hs (rb : Builder.RequestBuilder) :
  built rb ->
  exists rb' res,
    Builder.Headers hs rb = Returns rb' /\
    Builder.Build ctx rb' = Returns (rb', res) /\
    Builder.url rb' = Builder.url rb /\
    (Builder.Headers hs rb >>= Builder.Build ctx >>= Methods.send fuel env c w)
      = Methods.send fuel env c w (rb', res) /\
    forall r, res = inl r ->
      http.Method r =
        (if String.eqb (Builder.method rb) "" then "GET"
         else Builder.method rb) /\
      http.ReqBody r = Builder.body rb.
Proof.
  intros Hb.
  destruct (built_invariant rb Hb) as (Hform & Hhead & _).
  destruct (Headers_fold_returns (map_to_list hs) rb Hhead) as [rb' Hrb'].
  fold (Builder.Headers hs rb) in Hrb'.
  pose proof Hrb' as Hinv. unfold Builder.Headers in Hinv.
  apply Headers_fold_inv in Hinv.
  destruct Hinv as (rb0 & Heq & Hf & _ & Hm & Hu & Hbody & _).
  inversion Heq; subst rb0.
  destruct (Build_nil_form ctx rb' ltac:(congruence)) as (res & Hbuild & Hreq).
  exists rb', res. rewrite Hrb'. cbn [bind]. rewrite Hbuild. cbn [bind].
  split; [reflexivity |]. split; [reflexivity |]. split; [exact Hu |].
  split; [reflexivity |].
  intros r Hr. rewrite <- Hm, <- Hbody. exact (Hreq r Hr).
Qed.

(** X14: the client's [PostForm] panics whenever the form has an entry,
    for every client, URL and header map, before anything is sent; with
    an empty form it does what [Post] does with a nil body. *)
Theorem Methods_PostForm_panics fuel env c w ctx url
    (form headers : gmap string string) :
  Methods.PostForm fuel env c w ctx url form headers =
  if decide (form = ∅)
  then Methods.Post fuel env c w ctx url None headers
  else Panics "assignment to entry in nil map".
Proof.
  unfold Methods.PostForm, Methods.Post.
  destruct (decide (form = ∅)) as [-> | Hne].
  - unfold Builder.PostForm. rewrite map_to_list_empty. reflexivity.
  - rewrite (PostForm_nil_form form
               (Builder.URL url
                  (Builder.Method http.MethodPost Builder.NewRequestBuilder))
               eq_refl Hne).
    reflexivity.
Qed.

(** X15: when the body given to [PostJSON], [PutJSON] or [PatchJSON]
    cannot be marshalled, the method reports nothing: it does what
    [Post], [Put] or [Patch] does with a nil body, sending the request
    without a body. *)
Theorem Methods_JSON_marshal_failure fuel env c w ctx url (body : any)
    (err : error) (headers : gmap string string) :
  json_Marshal body = inr err ->
  Methods.PostJSON fuel env c w ctx url body headers =
    Methods.Post fuel env c w ctx url None headers /\
  Methods.PutJSON fuel env c w ctx url body headers =
    Methods.Put fuel env c w ctx url None headers /\
  Methods.PatchJSON fuel env c w ctx url body headers =
    Methods.Patch fuel env c w ctx url None headers.
Proof.
  intros Hfail.
  unfold Methods.PostJSON, Methods.PutJSON, Methods.PatchJSON,
    Methods.Post, Methods.Put, Methods.Patch, Builder.BodyJSON.
  rewrite Hfail. repeat split; reflexivity.
Qed.

(** X16: each request method sends its own verb.  A method never
    panics when no form is involved; when the builder reports an error
    (a URL that does not parse, a nil context) the method returns it
    without a round trip, the client and the world untouched; otherwise
    it runs [Execute] on a request with the method's verb and the body
    it was given (none for [Get] and [Delete]). *)
Theorem Methods_send_their_verb fuel env c w ctx url
    (body : option Reader) (headers : gmap string string) :
  let sent verb b out :=
    exists rb res,
      out = Methods.send fuel env c w (rb, res) /\
      Builder.url rb = url /\
      match res with
      | inr err => out = Returns (Some (inr err, c, w))
      | inl r => http.Method r = verb /\ http.ReqBody r = b
      end in
  sent "GET" None (Methods.Get fuel env c w ctx url headers) /\
  sent "POST" body (Methods.Post fuel env c w ctx url body headers) /\
  sent "PUT" body (Methods.Put fuel env c w ctx url body headers) /\
  sent "PATCH" body (Methods.Patch fuel env c w ctx url body headers) /\
  sent "DELETE" None (Methods.Delete fuel env c w ctx url headers).
Proof.
  intros sent.
  assert (Hsent : forall verb b rb,
             built rb ->
             Builder.method rb = verb -> verb <> "" ->
             Builder.url rb = url -> Builder.body rb = b ->
             sent verb b (Builder.Headers headers rb >>= Builder.Build ctx
                          >>= Methods.send fuel env c w)).
  { intros verb b rb Hb Hm Hne Hu Hbody.
    destruct (send_built fuel env c w ctx headers rb Hb)
      as (rb' & res & _ & _ & Hu' & Hchain & Hreq).
    exists rb', res. split; [exact Hchain |]. split; [congruence |].
    destruct res as [r | err].
    - destruct (Hreq r eq_refl) as [Hmeth Hb'].
      rewrite Hm in Hmeth.
      destruct (String.eqb verb "") eqn:Hv;
        [apply String.eqb_eq in Hv; contradiction |].
      split; congruence.
    - rewrite Hchain. reflexivity. }
  repeat split; apply Hsent; try reflexivity; try discriminate;
    repeat constructor.
Qed.

End request_methods.

Lemma Methods_JSON_marshal_failure_witness :
  @Methods.PostJSON sample_packages 5 env_two_clients (NewBackoffClient 0 [])
    start (Some 0%nat) "http://example.test/items" None ∅ =
    @Methods.Post sample_packages 5 env_two_clients (NewBackoffClient 0 [])
      start (Some 0%nat) "http://example.test/items" None ∅ /\
  @Methods.PutJSON sample_packages 5 env_two_clients (NewBackoffClient 0 [])
    start (Some 0%nat) "http://example.test/items" None ∅ =
    @Methods.Put sample_packages 5 env_two_clients (NewBackoffClient 0 [])
      start (Some 0%nat) "http://example.test/items" None ∅ /\
  @Methods.PatchJSON sample_packages 5 env_two_clients (NewBackoffClient 0 [])
    start (Some 0%nat) "http://example.test/items" None ∅ =
    @Methods.Patch sample_packages 5 env_two_clients (NewBackoffClient 0 [])
      start (Some 0%nat) "http://example.test/items" None ∅.
Proof.
  exact (@Methods_JSON_marshal_failure sample_packages 5 env_two_clients
           (NewBackoffClient 0 []) start (Some 0%nat)
           "http://example.test/items" None
           (PackageError "encoding/json" "unsupported type: chan int") ∅
           eq_refl).
Defined.

(** ** Giving up without a retry limit *)

(** The errors an attempt can hand to the loop: one the loop may retry,
    or a permanent one around a transport error. *)
Lemma f_error_cases (env : Env) c r a w err a1 w1 :
  transport_errors_plain env ->
  f env c r a w = (inr err, a1, w1) ->
  errors_As_Permanent err = None \/
  exists raw, errors_As_Permanent err = Some raw /\
              errors_Is_RetryableError raw = false.
Proof.
  intros Hplain. unfold f, execute. rewrite Do_world.
  destruct (roundTrip env (Client c) (timeout (cfg c)) r (calls w))
    as [resp | raw] eqn:Hrt.
  - destruct (ResponseRetryPolicy resp) as [perr |] eqn:Hpol.
    + cbn [errors_Is_RetryableError]. intros Hf; inversion Hf; subst.
      left. apply (ResponseRetryPolicy_not_permanent _ _ Hpol).
    + destruct (http.Body resp); cbn [io_ReadAll];
        intros Hf; inversion Hf; subst. left. reflexivity.
  - destruct (Hplain _ _ _ _ _ Hrt) as [Has His].
    destruct (ErrorRetryPolicy raw).
    + cbn [errors_Is_RetryableError]. intros Hf; inversion Hf; subst.
      left. exact Has.
    + rewrite His. intros Hf; inversion Hf; subst.
      right. exists raw. split; [reflexivity | exact His].
Qed.

Lemma retry_loop_stops_late fuel env c r e a w E b' a' w' :
  transport_errors_plain env ->
  retry_loop fuel env (f env c r) (notify c r) (cenkalti.Exponential e) a w =
    Some (inr E, b', a', w') ->
  errors_Is_RetryableError E = true ->
  default_settings e ->
  0 <= cenkalti.currentInterval e <= cenkalti.DefaultMaxInterval ->
  earliest_stop <= now w' - cenkalti.startTime e.
Proof.
  intros Hplain. revert e a w.
  induction fuel as [| fuel IH]; intros e a w Hrun His Hset Hcur;
    [discriminate |].
  loop_cases Hrun; cbn [fst snd] in *.
  - inversion Hrun.
  - inversion Hrun; subst.
    destruct (f_error_cases _ _ _ _ _ _ _ _ Hplain Hf)
      as [Hnone | (raw & Hsome & Hraw)]; congruence.
  - inversion Hrun; subst. clear Hrun IH.
    apply Z.eqb_eq in Hstop. subst next.
    cbn [cenkalti.NextBackOff] in Hnext.
    destruct (cenkalti.Exponential_NextBackOff (now w1)
                (rand_Float64 env (draws w1)) e) as [next e'] eqn:Hexp.
    inversion Hnext; subst. clear Hnext.
    revert Hexp. unfold cenkalti.Exponential_NextBackOff.
    destruct Hset as (Hrf & Hm & Hmax & Hel). rewrite Hrf, Hel.
    change cenkalti.DefaultRandomizationFactor with (1 # 2).
    pose proof (rand_Float64_range env (draws w1)) as [Hr0 Hr1].
    pose proof (getRandomValueFromInterval_range
                  (rand_Float64 env (draws w1)) (cenkalti.currentInterval e)
                  Hr0 Hr1 (proj1 Hcur)) as Hj.
    set (j := cenkalti.getRandomValueFromInterval _ _ _) in *.
    change (negb (cenkalti.DefaultMaxElapsedTime =? 0)) with true.
    cbn [andb].
    destruct (now w1 - cenkalti.startTime e + j >? cenkalti.DefaultMaxElapsedTime)
      eqn:Hgt; intros Hexp; inversion Hexp; subst.
    + rewrite Z.gtb_ltb in Hgt. apply Z.ltb_lt in Hgt.
      cbn [now].
      change cenkalti.DefaultMaxElapsedTime with 900000000000 in Hgt.
      change cenkalti.DefaultMaxInterval with 60000000000 in Hcur.
      change earliest_stop with 810000000000. lia.
    + unfold cenkalti.Stop in *. lia.
  - apply Z.eqb_neq in Hstop.
    cbn [cenkalti.NextBackOff] in Hnext.
    destruct (cenkalti.Exponential_NextBackOff (now w1)
                (rand_Float64 env (draws w1)) e) as [next' e'] eqn:Hexp.
    inversion Hnext; subst. clear Hnext.
    assert (He' : e' = cenkalti.incrementCurrentInterval e).
    { revert Hexp. unfold cenkalti.Exponential_NextBackOff.
      destruct (_ && _); intros Hexp; inversion Hexp; reflexivity. }
    subst e'.
    destruct (incrementCurrentInterval_bounds e Hset Hcur)
      as (Hset' & Hstart' & Hcur').
    rewrite <- Hstart'.
    apply (IH _ _ _ Hrun His Hset' Hcur').
Qed.

(** X17: with maxRetry 0, the default, no count ends a run.  When
    [Execute] on such a client returns an error that [errors.Is]
    recognises as a [RetryableError], at least 13.5 minutes have passed
    since the call began: only the scheduler's limit on the elapsed time
    makes the client give up on a retryable failure. *)
Theorem Execute_unbounded_by_count fuel env now0 opts r w E c' attempts w' :
  maxRetry (cfg (NewBackoffClient now0 opts)) = 0%N ->
  transport_errors_plain env ->
  Execute fuel env (NewBackoffClient now0 opts) r w =
    Some (inr E, c', attempts, w') ->
  errors_Is_RetryableError E = true ->
  earliest_stop <= now w' - now w.
Proof.
  intros Hmax Hplain Hrun His.
  revert Hrun. unfold Execute, RetryNotifyWithData.
  rewrite NewBackoffClient_strategy, Hmax. cbn [N.ltb N.compare cenkalti.Reset].
  destruct (retry_loop _ _ _ _ _ _ _) as [[[[res1 b1] a1] w1] |] eqn:Hloop;
    [| discriminate].
  intros Hrun. inversion Hrun; subst.
  apply (retry_loop_stops_late _ _ _ _ _ _ _ _ _ _ _ Hplain Hloop His).
  - repeat split; reflexivity.
  - vm_compute. split; discriminate.
Qed.

Lemma Execute_unbounded_by_count_witness :
  match Execute 5 env_slow_503 (NewBackoffClient 0 []) sample_request start with
  | Some (inr E, _, _, w') =>
      errors_Is_RetryableError E = true /\
      earliest_stop <= now w' - now start
  | _ => False
  end.
Proof.
  destruct (Execute 5 env_slow_503 (NewBackoffClient 0 []) sample_request start)
    as [[[[[v | E] c'] attempts] w'] |] eqn:Hrun.
  - vm_compute in Hrun. discriminate Hrun.
  - assert (His : errors_Is_RetryableError E = true).
    { pose proof Hrun as Hc. vm_compute in Hc. inversion Hc. reflexivity. }
    split; [exact His |].
    apply (Execute_unbounded_by_count 5 env_slow_503 0 [] sample_request start
             E c' attempts w').
    + reflexivity.
    + intros cl d r k err Herr. discriminate Herr.
    + exact Hrun.
    + exact His.
  - vm_compute in Hrun. discriminate Hrun.
Defined.

(** ** Storing headers *)

Lemma Headers_fold_store (l : list (string * string))
    (rb : Builder.RequestBuilder) (h : gmap string string) :
  Builder.headers rb = Some h ->
  foldl (fun o kv => o >>= Builder.headers_store kv.1 kv.2) (Returns rb) l =
  Returns (Builder.set_headers
             (Some (foldl (fun m kv => <[kv.1 := kv.2]> m) h l)) rb).
Proof.
  revert rb h. induction l as [| kv l IH]; intros rb h Hh; cbn [foldl bind].
  - destruct rb; cbn in *. subst. reflexivity.
  - unfold Builder.headers_store at 2. rewrite Hh.
    rewrite (IH _ (<[kv.1 := kv.2]> h)) by reflexivity.
    destruct rb; reflexivity.
Qed.

(** X18: [Headers] stores every entry of its argument in the builder,
    an entry replacing the value the builder had under the same key
    (keys are compared as written, without canonical form) and the other
    keys keeping theirs.  On a builder whose header map is nil it panics,
    unless the argument is empty. *)
Theorem Headers_stores_entries (hs : gmap string string)
    (rb : Builder.RequestBuilder) :
  Builder.Headers hs rb =
  match Builder.headers rb with
  | Some h => Returns (Builder.set_headers (Some (hs ∪ h)) rb)
  | None =>
      if decide (hs = ∅) then Returns rb
      else Panics "assignment to entry in nil map"
  end.
Proof.
  unfold Builder.Headers.
  destruct (Builder.headers rb) as [h |] eqn:Hh.
  - rewrite (Headers_fold_store _ rb h Hh). do 3 f_equal.
    apply map_eq. intros k.
    rewrite foldl_insert_lookup by apply NoDup_fst_map_to_list.
    rewrite list_to_map_to_list, lookup_union.
    destruct (hs !! k), (h !! k); reflexivity.
  - destruct (decide (hs = ∅)) as [-> | Hne].
    + rewrite map_to_list_empty. reflexivity.
    + destruct (map_to_list hs) as [| kv l] eqn:Hl.
      * apply map_to_list_empty_iff in Hl. contradiction.
      * cbn [foldl bind]. unfold Builder.headers_store at 2. rewrite Hh.
        apply (foldl_bind_Panics
                 (fun rb kv => Builder.headers_store kv.1 kv.2 rb)).
Qed.
